(** * hui-card-editor: the dual-view card editor element

    A shallow embedding of
    [src/panels/lovelace/editor/card-editor/hui-card-editor.ts].

    The element keeps a card configuration both as an object ([_config])
    and as YAML text ([_yaml]), mounts the form editor that belongs to the
    card type, and reports to its host through the DOM events
    [config-changed] and [GUImode-changed].

    Modelling choices.
    - The element's properties are the fields of [State]; every method is a
      function on [State].
    - [fireEvent] appends to the [events] log of the state.  Host listeners
      are outside this file and are taken not to call back into the element
      while an event is dispatched.
    - [_updateConfigElement] is an [async] method that is called without
      [await].  It runs synchronously up to its first [await] and then
      suspends; what is left of it is a [Continuation] kept in [pending]
      until the awaited promise settles.  A promise is represented by the
      outcome it settles with.
    - js-yaml ([safeLoad], [safeDump]), [deepEqual], the card class lookup
      [getCardElementClass] and the engine's [TypeError] are collaborators
      of the element and are the fields of [Env].  [safeDump(undefined)]
      throws; the setter that calls it has no handler.
    - An assignment to [hass] or [lovelace] and the [updated] call that
      LitElement makes after the next render are separate actions. *)

From Stdlib Require Import String Ascii List Bool Arith Lia.
Import ListNotations.
Open Scope string_scope.

(** ** Values *)

(** A thrown JavaScript [Error]; only its [message] is ever read. *)
Record JsError := { message : string }.

(** The result of a call that may throw, or of a promise once settled. *)
Inductive Outcome (A : Type) : Type :=
| Returns (a : A)
| Throws (err : JsError).
Arguments Returns {A} a.
Arguments Throws {A} err.

(** [LovelaceCardConfig]: the [type] key and the other keys of the card. *)
Record LovelaceCardConfig := {
  type : option string;
  fields : list (string * string)
}.

(** Opaque references handed in by the host. *)
Definition HomeAssistant := nat.
Definition LovelaceConfig := nat.

(** [LovelaceCardEditor]: a form editor.  [setConfig] either returns ([None])
    or throws ([Some err]). *)
Record LovelaceCardEditor := {
  tag : string;
  setConfig : option LovelaceCardConfig -> option JsError
}.

(** A form editor together with the properties the element assigns to it. *)
Record ConfigElement := {
  editor : LovelaceCardEditor;
  el_hass : option HomeAssistant;
  el_lovelace : option LovelaceConfig;
  el_listeners : nat
}.

(** A card class; the static [getConfigElement] is optional, and when it is
    there it returns a promise of an editor. *)
Record CardElementClass := {
  getConfigElement : option (Outcome (option LovelaceCardEditor))
}.

(** What [_error] holds: line 87 stores a message, line 280 stores the caught
    [Error] object itself. *)
Inductive ErrorValue :=
| ErrMessage (msg : string)
| ErrObject (err : JsError).

Module ConfigChanged.
(** [ConfigChangedEvent] *)
Record detail := {
  config : option LovelaceCardConfig;
  error : option ErrorValue;
  guiModeAvailable : bool
}.
End ConfigChanged.

Module GUIModeChanged.
(** [GUIModeChangedEvent] *)
Record detail := {
  guiMode : bool;
  guiModeAvailable : bool
}.
End GUIModeChanged.

Inductive Event :=
| EvConfigChanged (d : ConfigChanged.detail)
| EvGUImodeChanged (d : GUIModeChanged.detail).

(** The rest of a suspended [_updateConfigElement], with the local
    [cardType] it captured and the promise it waits for. *)
Inductive Continuation :=
| AwaitCardElementClass (cardType : string)
                        (promise : Outcome (option CardElementClass))
| AwaitConfigElement (cardType : string)
                     (promise : Outcome (option LovelaceCardEditor)).

(** ** Collaborators *)

Record Env := {
  (** js-yaml [safeLoad]: the document ([None] for an empty one) or a
      [YAMLException]. *)
  safeLoad : string -> Outcome (option LovelaceCardConfig);
  (** js-yaml [safeDump] of a card config; the values of a config are
      strings here, and those always dump. *)
  safeDump : LovelaceCardConfig -> string;
  (** The [YAMLException] that [safeDump(undefined)] throws. *)
  safeDump_undefined : JsError;
  deepEqual : option LovelaceCardConfig -> option LovelaceCardConfig -> bool;
  (** [getCardElementClass]: the promise it returns for a card type. *)
  getCardElementClass : string -> Outcome (option CardElementClass);
  (** The [TypeError] of the engine for an access to the named property of
      [undefined]. *)
  typeError : string -> JsError
}.

(** ** The element *)

Record State := {
  hass : HomeAssistant;
  lovelace : option LovelaceConfig;
  _yaml : option string;
  _config : option LovelaceCardConfig;
  _configElement : option ConfigElement;
  _configElType : option string;
  _GUImode : bool;
  _error : option ErrorValue;
  _warning : option string;
  _loading : bool;
  (** events dispatched so far, oldest first *)
  events : list Event;
  (** suspended runs of [_updateConfigElement], oldest first *)
  pending : list Continuation;
  (** how often [_updateConfigElement] has been entered *)
  reconciliations : nat
}.

(** A freshly constructed element: the property initialisers of the class. *)
Definition initial (h : HomeAssistant) : State := {|
  hass := h; lovelace := None;
  _yaml := None; _config := None;
  _configElement := None; _configElType := None;
  _GUImode := true; _error := None; _warning := None; _loading := false;
  events := []; pending := []; reconciliations := 0
|}.

Definition set_hass v s := {|
  hass := v; lovelace := lovelace s; _yaml := _yaml s; _config := _config s;
  _configElement := _configElement s; _configElType := _configElType s;
  _GUImode := _GUImode s; _error := _error s; _warning := _warning s;
  _loading := _loading s; events := events s; pending := pending s;
  reconciliations := reconciliations s |}.

Definition set_lovelace v s := {|
  hass := hass s; lovelace := v; _yaml := _yaml s; _config := _config s;
  _configElement := _configElement s; _configElType := _configElType s;
  _GUImode := _GUImode s; _error := _error s; _warning := _warning s;
  _loading := _loading s; events := events s; pending := pending s;
  reconciliations := reconciliations s |}.

Definition set_yaml v s := {|
  hass := hass s; lovelace := lovelace s; _yaml := v; _config := _config s;
  _configElement := _configElement s; _configElType := _configElType s;
  _GUImode := _GUImode s; _error := _error s; _warning := _warning s;
  _loading := _loading s; events := events s; pending := pending s;
  reconciliations := reconciliations s |}.

Definition set_config v s := {|
  hass := hass s; lovelace := lovelace s; _yaml := _yaml s; _config := v;
  _configElement := _configElement s; _configElType := _configElType s;
  _GUImode := _GUImode s; _error := _error s; _warning := _warning s;
  _loading := _loading s; events := events s; pending := pending s;
  reconciliations := reconciliations s |}.

Definition set_configElement v s := {|
  hass := hass s; lovelace := lovelace s; _yaml := _yaml s;
  _config := _config s;
  _configElement := v; _configElType := _configElType s;
  _GUImode := _GUImode s; _error := _error s; _warning := _warning s;
  _loading := _loading s; events := events s; pending := pending s;
  reconciliations := reconciliations s |}.

Definition set_configElType v s := {|
  hass := hass s; lovelace := lovelace s; _yaml := _yaml s;
  _config := _config s;
  _configElement := _configElement s; _configElType := v;
  _GUImode := _GUImode s; _error := _error s; _warning := _warning s;
  _loading := _loading s; events := events s; pending := pending s;
  reconciliations := reconciliations s |}.

Definition set_GUImode v s := {|
  hass := hass s; lovelace := lovelace s; _yaml := _yaml s;
  _config := _config s;
  _configElement := _configElement s; _configElType := _configElType s;
  _GUImode := v; _error := _error s; _warning := _warning s;
  _loading := _loading s; events := events s; pending := pending s;
  reconciliations := reconciliations s |}.

Definition set_error v s := {|
  hass := hass s; lovelace := lovelace s; _yaml := _yaml s;
  _config := _config s;
  _configElement := _configElement s; _configElType := _configElType s;
  _GUImode := _GUImode s; _error := v; _warning := _warning s;
  _loading := _loading s; events := events s; pending := pending s;
  reconciliations := reconciliations s |}.

Definition set_warning v s := {|
  hass := hass s; lovelace := lovelace s; _yaml := _yaml s;
  _config := _config s;
  _configElement := _configElement s; _configElType := _configElType s;
  _GUImode := _GUImode s; _error := _error s; _warning := v;
  _loading := _loading s; events := events s; pending := pending s;
  reconciliations := reconciliations s |}.

Definition set_loading v s := {|
  hass := hass s; lovelace := lovelace s; _yaml := _yaml s;
  _config := _config s;
  _configElement := _configElement s; _configElType := _configElType s;
  _GUImode := _GUImode s; _error := _error s; _warning := _warning s;
  _loading := v; events := events s; pending := pending s;
  reconciliations := reconciliations s |}.

Definition set_events v s := {|
  hass := hass s; lovelace := lovelace s; _yaml := _yaml s;
  _config := _config s;
  _configElement := _configElement s; _configElType := _configElType s;
  _GUImode := _GUImode s; _error := _error s; _warning := _warning s;
  _loading := _loading s; events := v; pending := pending s;
  reconciliations := reconciliations s |}.

Definition set_pending v s := {|
  hass := hass s; lovelace := lovelace s; _yaml := _yaml s;
  _config := _config s;
  _configElement := _configElement s; _configElType := _configElType s;
  _GUImode := _GUImode s; _error := _error s; _warning := _warning s;
  _loading := _loading s; events := events s; pending := v;
  reconciliations := reconciliations s |}.

Definition set_reconciliations v s := {|
  hass := hass s; lovelace := lovelace s; _yaml := _yaml s;
  _config := _config s;
  _configElement := _configElement s; _configElType := _configElType s;
  _GUImode := _GUImode s; _error := _error s; _warning := _warning s;
  _loading := _loading s; events := events s; pending := pending s;
  reconciliations := v |}.

(** *** JavaScript idioms *)

(** Truthiness of a string: only the empty string is falsy. *)
Definition truthy (s : string) : bool := negb (s =? "").

(** Truthiness of [this._error]. *)
Definition truthy_error (e : option ErrorValue) : bool :=
  match e with
  | None => false
  | Some (ErrMessage m) => truthy m
  | Some (ErrObject _) => true
  end.

(** [a !== b] on values that are a string or [undefined]. *)
Definition strict_neq (a b : option string) : bool :=
  match a, b with
  | None, None => false
  | Some x, Some y => negb (x =? y)
  | _, _ => true
  end.

(** [s.substr(n)] *)
Definition substr (n : nat) (s : string) : string :=
  substring n (String.length s - n) s.

(** [s.startsWith(p)] *)
Definition startsWith (p s : string) : bool := prefix p s.

Definition defined {A} (o : option A) : bool :=
  match o with Some _ => true | None => false end.

(** *** Getters, events and the display mode *)

(** [get yaml] (line 77) *)
Definition yaml (s : State) : string :=
  match _yaml s with
  | Some t => t
  | None => ""
  end.

(** [get value] (line 92) *)
Definition value (s : State) : option LovelaceCardConfig := _config s.

(** [get hasWarning], [get hasError] (lines 122-128) *)
Definition hasWarning (s : State) : bool := defined (_warning s).
Definition hasError (s : State) : bool := defined (_error s).

(** [get GUImode] *)
Definition GUImode (s : State) : bool := _GUImode s.

Definition fireEvent (e : Event) (s : State) : State :=
  set_events (events s ++ [e]) s.

(** [set GUImode] (lines 134-140) *)
Definition GUImode_set (guiMode : bool) (s : State) : State :=
  let s1 := set_GUImode guiMode s in
  fireEvent
    (EvGUImodeChanged
       {| GUIModeChanged.guiMode := guiMode;
          GUIModeChanged.guiModeAvailable :=
            negb (hasWarning s1 || hasError s1) |})
    s1.

(** [toggleMode] (line 142) *)
Definition toggleMode (s : State) : State :=
  GUImode_set (negb (GUImode s)) s.

Section Element.

Variable env : Env.

(** *** [_updateConfigElement] (lines 231-286) *)

(** The [finally] clause (line 284). *)
Definition finally_clause (s : State) : State := set_loading false s.

(** The [catch] clause (lines 276-282) followed by the [finally] clause. *)
Definition catch_clause (err : JsError) (s : State) : State :=
  let s1 :=
    if startsWith "WARNING:" (message err)
    then set_warning (Some (substr 8 (message err))) s
    else set_error (Some (ErrObject err)) s in
  finally_clause (GUImode_set false s1).

(** Lines 270-275: hand [this.value] to the mounted editor.  With nothing
    mounted the call is a property access on [undefined]. *)
Definition forward_config (s : State) : State :=
  match _configElement s with
  | None =>
      catch_clause
        {| message := "WARNING: " ++ message (typeError env "setConfig") |} s
  | Some el =>
      match setConfig (editor el) (value s) with
      | None => finally_clause s
      | Some err =>
          catch_clause {| message := "WARNING: " ++ message err |} s
      end
  end.

(** Line 256 *)
Definition no_visual_editor (cardType : string) : JsError :=
  {| message := "WARNING: No visual editor available for: " ++ cardType |}.

(** Line 245 *)
Definition no_card_type : JsError := {| message := "No card type defined" |}.

(** The method from its entry to its first [await] (line 248) or, when it
    does not reach one, to its end. *)
Definition _updateConfigElement (s0 : State)
  : State * option Continuation :=
  let s := set_reconciliations (S (reconciliations s0)) s0 in
  match value s with
  | None => (s, None)
  | Some v =>
      let cardType := type v in
      let s1 := set_warning None (set_error None s) in
      if strict_neq (_configElType s1) cardType then
        match cardType with
        | Some t =>
            if truthy t
            then (s1, Some (AwaitCardElementClass t
                              (getCardElementClass env t)))
            else (catch_clause no_card_type s1, None)
        | None => (catch_clause no_card_type s1, None)
        end
      else (forward_config s1, None)
  end.

(** Lines 259-267: commit the bind and do the final setup.  Assigning
    [hass] on an [undefined] editor throws. *)
Definition bind_element (cardType : string)
    (configElement : option LovelaceCardEditor) (s : State) : State :=
  match configElement with
  | None =>
      let s1 := set_configElType (Some cardType)
                  (set_configElement None s) in
      catch_clause (typeError env "hass") s1
  | Some ed =>
      let el := {| editor := ed; el_hass := Some (hass s);
                   el_lovelace := lovelace s; el_listeners := 1 |} in
      let s1 := set_configElType (Some cardType)
                  (set_configElement (Some el) s) in
      forward_config s1
  end.

(** The method from a settled [await] to its next [await] or its end. *)
Definition resume (k : Continuation) (s : State)
  : State * option Continuation :=
  match k with
  | AwaitCardElementClass cardType promise =>
      match promise with
      | Throws err => (catch_clause err s, None)
      | Returns elClass =>
          let s1 := set_loading true s in
          match elClass with
          | Some cls =>
              match getConfigElement cls with
              | Some promise' =>
                  (s1, Some (AwaitConfigElement cardType promise'))
              | None => (catch_clause (no_visual_editor cardType) s1, None)
              end
          | None => (catch_clause (no_visual_editor cardType) s1, None)
          end
      end
  | AwaitConfigElement cardType promise =>
      match promise with
      | Throws err => (catch_clause err s, None)
      | Returns configElement => (bind_element cardType configElement s, None)
      end
  end.

(** A suspended run waits in [pending]. *)
Definition suspend (k : option Continuation) (s : State) : State :=
  match k with
  | Some c => set_pending (pending s ++ [c]) s
  | None => s
  end.

(** *** The store (lines 81-120) *)

(** [_setConfig].  The call on line 109 is not awaited: it returns a promise
    and never throws, so line 110 always follows it and line 112 is never
    reached. *)
Definition _setConfig (s : State) : State :=
  let s1 :=
    if negb (truthy_error (_error s)) then
      let (s', k) := _updateConfigElement s in
      set_error None (suspend k s')
    else s in
  fireEvent
    (EvConfigChanged
       {| ConfigChanged.config := value s1;
          ConfigChanged.error := _error s1;
          ConfigChanged.guiModeAvailable :=
            negb (hasWarning s1 || hasError s1) |})
    s1.

(** [set yaml] *)
Definition yaml_set (text : string) (s : State) : State :=
  let s1 := set_yaml (Some text) s in
  let s2 :=
    match safeLoad env (yaml s1) with
    | Returns c => set_error None (set_config c s1)
    | Throws err => set_error (Some (ErrMessage (message err))) s1
    end in
  _setConfig s2.

(** [set value]: the element when the setter is left, and the exception
    that left it, if any.  The guard returns at once.  Past the guard line
    100 stores the config; for a config line 101 stores its dump and the
    rest follows; for [undefined], [safeDump] throws on line 101 and the
    setter is left with the config stored and nothing else done. *)
Definition value_setter (config : option LovelaceCardConfig) (s : State)
  : State * option JsError :=
  let assign :=
    let s1 := set_config config s in
    match config with
    | Some c =>
        (_setConfig
           (set_error None (set_yaml (Some (safeDump env c)) s1)), None)
    | None => (s1, Some (safeDump_undefined env))
    end in
  match _config s with
  | Some cur =>
      if deepEqual env config (Some cur) then (s, None) else assign
  | None => assign
  end.

(** The element after the assignment, whether the setter returned or
    threw. *)
Definition value_set (config : option LovelaceCardConfig) (s : State)
  : State := fst (value_setter config s).

(** [_handleUIConfigChanged], [_handleYAMLChanged] (lines 217-229) *)
Definition _handleUIConfigChanged (config : LovelaceCardConfig) (s : State)
  : State := value_set (Some config) s.

Definition _handleYAMLChanged (newYaml : string) (s : State) : State :=
  if negb (newYaml =? yaml s) then yaml_set newYaml s else s.

(** [updated] (lines 207-215): the two assignments it may make. *)
Definition forward_hass (s : State) : State :=
  match _configElement s with
  | Some el =>
      set_configElement
        (Some {| editor := editor el; el_hass := Some (hass s);
                 el_lovelace := el_lovelace el;
                 el_listeners := el_listeners el |}) s
  | None => s
  end.

Definition forward_lovelace (s : State) : State :=
  match _configElement s with
  | Some el =>
      set_configElement
        (Some {| editor := editor el; el_hass := el_hass el;
                 el_lovelace := lovelace s;
                 el_listeners := el_listeners el |}) s
  | None => s
  end.

(** [updated]; the two flags say whether [changedProperties] has ["hass"]
    and ["lovelace"]. *)
Definition updated (hassChanged lovelaceChanged : bool) (s : State)
  : State :=
  let s1 := if hassChanged then forward_hass s else s in
  if lovelaceChanged then forward_lovelace s1 else s1.

(** *** The session: what can happen to the element, one task at a time *)

Inductive Action :=
| SetYaml (text : string)
| SetValue (config : option LovelaceCardConfig)
| ToggleMode
| SetGUImode (guiMode : bool)
| UIConfigChanged (config : LovelaceCardConfig)
| YAMLChanged (newYaml : string)
| SetHass (h : HomeAssistant)
| SetLovelace (l : option LovelaceConfig)
| Updated (hassChanged lovelaceChanged : bool)
| Settle (n : nat).

Fixpoint remove_nth {A} (n : nat) (l : list A) : list A :=
  match n, l with
  | _, [] => []
  | O, _ :: t => t
  | S m, x :: t => x :: remove_nth m t
  end.

(** [Settle n]: the promise awaited by the [n]-th suspended run settles and
    the run goes on. *)
Definition settle (n : nat) (s : State) : State :=
  match nth_error (pending s) n with
  | Some k =>
      let (s1, k') := resume k (set_pending (remove_nth n (pending s)) s) in
      suspend k' s1
  | None => s
  end.

Definition step (a : Action) (s : State) : State :=
  match a with
  | SetYaml text => yaml_set text s
  | SetValue config => value_set config s
  | ToggleMode => toggleMode s
  | SetGUImode g => GUImode_set g s
  | UIConfigChanged config => _handleUIConfigChanged config s
  | YAMLChanged newYaml => _handleYAMLChanged newYaml s
  | SetHass h => set_hass h s
  | SetLovelace l => set_lovelace l s
  | Updated hassChanged lovelaceChanged =>
      updated hassChanged lovelaceChanged s
  | Settle n => settle n s
  end.

Definition run (acts : list Action) (s : State) : State :=
  fold_left (fun s a => step a s) acts s.

End Element.

(** ** A concrete environment for the scenarios

    A small card catalogue and a codec for flat documents, used to run the
    element on concrete inputs. *)

Module Scenario.

Definition nl : string := String (ascii_of_nat 10) "".

Definition markdown_card : LovelaceCardConfig :=
  {| type := Some "markdown"; fields := [("content", "hi")] |}.
Definition card_a : LovelaceCardConfig :=
  {| type := Some "a"; fields := [] |}.
Definition card_b : LovelaceCardConfig :=
  {| type := Some "b"; fields := [] |}.
Definition unknown_card : LovelaceCardConfig :=
  {| type := Some "unknown-type"; fields := [] |}.
Definition picture_card : LovelaceCardConfig :=
  {| type := Some "picture"; fields := [("image", "x.png")] |}.
Definition typeless_card : LovelaceCardConfig :=
  {| type := None; fields := [("content", "hi")] |}.

Definition markdown_without_content : LovelaceCardConfig :=
  {| type := Some "markdown"; fields := [] |}.

Definition bad_text : string := "type: bad: yaml: [".

Definition dump_fields (l : list (string * string)) : string :=
  String.concat "" (map (fun kv => fst kv ++ ": " ++ snd kv ++ nl) l).

Definition dump (c : LovelaceCardConfig) : string :=
  match type c with
  | Some t => "type: " ++ t ++ nl ++ dump_fields (fields c)
  | None => dump_fields (fields c)
  end.

Definition documents : list LovelaceCardConfig :=
  [markdown_card; card_a; card_b; unknown_card; picture_card;
   typeless_card; markdown_without_content].

Fixpoint load_from (docs : list LovelaceCardConfig) (text : string)
  : Outcome (option LovelaceCardConfig) :=
  match docs with
  | [] =>
      Throws {| message :=
        "bad indentation of a mapping entry at line 1, column 10" |}
  | c :: rest =>
      if text =? dump c then Returns (Some c)
      else load_from rest text
  end.

Definition load (text : string) : Outcome (option LovelaceCardConfig) :=
  if text =? "" then Returns None else load_from documents text.

Definition option_string_eqb (a b : option string) : bool :=
  negb (strict_neq a b).

Fixpoint fields_eqb (a b : list (string * string)) : bool :=
  match a, b with
  | [], [] => true
  | (k, v) :: a', (k', v') :: b' =>
      (k =? k') && (v =? v') && fields_eqb a' b'
  | _, _ => false
  end.

Definition equal (a b : option LovelaceCardConfig) : bool :=
  match a, b with
  | None, None => true
  | Some x, Some y =>
      option_string_eqb (type x) (type y) && fields_eqb (fields x) (fields y)
  | _, _ => false
  end.

(** An editor that takes the cards of its own type only. *)
Definition editor_for (t : string) : LovelaceCardEditor :=
  {| tag := "hui-" ++ t ++ "-card-editor";
     setConfig := fun c =>
       match c with
       | Some cfg =>
           if option_string_eqb (type cfg) (Some t) then None
           else Some {| message := "Unexpected card type" |}
       | None => Some {| message := "Invalid configuration" |}
       end |}.

Definition has_key (k : string) (c : LovelaceCardConfig) : bool :=
  existsb (fun kv => fst kv =? k) (fields c).

(** The markdown editor also insists on a [content] key. *)
Definition markdown_editor : LovelaceCardEditor :=
  {| tag := "hui-markdown-card-editor";
     setConfig := fun c =>
       match c with
       | Some cfg =>
           if option_string_eqb (type cfg) (Some "markdown") then
             if has_key "content" cfg then None
             else Some {| message := "Content required" |}
           else Some {| message := "Unexpected card type" |}
       | None => Some {| message := "Invalid configuration" |}
       end |}.

Definition class_with_editor (t : string) : CardElementClass :=
  {| getConfigElement := Some (Returns (Some (editor_for t))) |}.

Definition markdown_class : CardElementClass :=
  {| getConfigElement := Some (Returns (Some markdown_editor)) |}.

Definition class_without_editor : CardElementClass :=
  {| getConfigElement := None |}.

Definition catalogue (t : string) : Outcome (option CardElementClass) :=
  if t =? "markdown" then Returns (Some markdown_class)
  else if t =? "a" then Returns (Some (class_with_editor "a"))
  else if t =? "b" then Returns (Some (class_with_editor "b"))
  else if t =? "picture" then Returns (Some class_without_editor)
  else if t =? "unknown-type" then Returns None
  else Throws {| message := "Unknown type: " ++ t |}.

Definition env : Env :=
  {| safeLoad := load;
     safeDump := dump;
     safeDump_undefined :=
       {| message :=
            "unacceptable kind of an object to dump [object Undefined]" |};
     deepEqual := equal;
     getCardElementClass := catalogue;
     typeError := fun p =>
       {| message := "Cannot read property '" ++ p ++ "' of undefined" |}
  |}.

Definition start : State := initial 0.

End Scenario.

(** ** Reading the event log *)

Definition is_change_event (e : Event) : bool :=
  match e with
  | EvConfigChanged _ => true
  | EvGUImodeChanged _ => false
  end.

(** Number of [config-changed] events in a log. *)
Definition change_count (l : list Event) : nat :=
  List.length (filter is_change_event l).

(** The [GUImode-changed] event of a forced switch to the YAML view. *)
Definition forced_raw : Event :=
  EvGUImodeChanged
    {| GUIModeChanged.guiMode := false;
       GUIModeChanged.guiModeAvailable := false |}.

(** The [config-changed] event that reports the state [s]. *)
Definition reports (s : State) : Event :=
  EvConfigChanged
    {| ConfigChanged.config := value s;
       ConfigChanged.error := _error s;
       ConfigChanged.guiModeAvailable :=
         negb (hasWarning s || hasError s) |}.

(** From [s] to [s'] only [GUImode-changed] events were dispatched. *)
Definition quiet (s s' : State) : Prop :=
  exists pre, events s' = (events s ++ pre)%list /\ change_count pre = 0.

(** From [s] to [s'] exactly one [config-changed] event was dispatched, as
    the last event, and it reports [s']. *)
Definition emits_one_change (s s' : State) : Prop :=
  exists pre,
    events s' = (events s ++ pre ++ [reports s'])%list
    /\ change_count pre = 0.

(** The error classification of a state as the specification names it. *)
Inductive ErrorState :=
| NoClassification
| Warning (msg : string)
| Error (e : ErrorValue).

Definition errorState (s : State) : ErrorState :=
  match _error s, _warning s with
  | Some e, _ => Error e
  | None, Some w => Warning w
  | None, None => NoClassification
  end.

(** The guard on line 97. *)
Definition is_current (env : Env) (config : option LovelaceCardConfig)
    (s : State) : bool :=
  match _config s with
  | Some cur => deepEqual env config (Some cur)
  | None => false
  end.

(** In a [config-changed] event the [error] is absent or a string. *)
Definition error_is_string (e : Event) : Prop :=
  match e with
  | EvConfigChanged d =>
      match ConfigChanged.error d with
      | Some (ErrObject _) => False
      | _ => True
      end
  | EvGUImodeChanged _ => True
  end.

(** A state whose [_error] is [undefined] or a message. *)
Definition error_slot_is_string (s : State) : Prop :=
  match _error s with
  | Some (ErrObject _) => False
  | _ => True
  end.

(** The session in which [c] was assigned and its two awaits have
    settled. *)
Definition mounted (env : Env) (c : LovelaceCardConfig) (s : State) : State :=
  run env [SetValue (Some c); Settle 0; Settle 0] s.

(** ** What is rendered (lines 159-205) *)

(** The child of the wrapper that depends on the display mode. *)
Inductive MainView :=
| Spinner
| GuiEditor (el : option ConfigElement)
| YamlEditor (value : string) (error : bool) (rtl : bool).

Record Rendered := {
  main : MainView;
  error_div : option ErrorValue;
  warning_div : option string
}.

(** [render]; [computeRTL] is the helper imported on line 14. *)
Definition render (computeRTL : HomeAssistant -> bool) (s : State)
  : Rendered :=
  {| main :=
       if GUImode s
       then (if _loading s then Spinner else GuiEditor (_configElement s))
       else YamlEditor (yaml s) (truthy_error (_error s))
              (computeRTL (hass s));
     error_div := if truthy_error (_error s) then _error s else None;
     warning_div :=
       match _warning s with
       | Some w => if truthy w then Some w else None
       | None => None
       end |}.

(** ** Reading actions and suspended runs *)

(** The actions that assign the text or the config. *)
Definition is_edit (a : Action) : bool :=
  match a with
  | SetYaml _ | SetValue _ | UIConfigChanged _ | YAMLChanged _ => true
  | _ => false
  end.

(** The actions that assign the display mode. *)
Definition is_mode_action (a : Action) : bool :=
  match a with
  | ToggleMode | SetGUImode _ => true
  | _ => false
  end.

(** A run suspended on [getConfigElement] (line 253). *)
Definition awaits_element (k : Continuation) : bool :=
  match k with
  | AwaitConfigElement _ _ => true
  | AwaitCardElementClass _ _ => false
  end.

(** The card type a suspended run captured. *)
Definition captured_type (k : Continuation) : string :=
  match k with
  | AwaitCardElementClass t _ => t
  | AwaitConfigElement t _ => t
  end.

(** How many awaits a suspended run can still go through. *)
Definition awaits_left (k : Continuation) : nat :=
  match k with
  | AwaitCardElementClass _ _ => 2
  | AwaitConfigElement _ _ => 1
  end.

Definition awaits_due (l : list Continuation) : nat :=
  list_sum (map awaits_left l).

(** Number of [config-changed] events that carry an error. *)
Definition carries_error (e : Event) : bool :=
  match e with
  | EvConfigChanged d => defined (ConfigChanged.error d)
  | EvGUImodeChanged _ => false
  end.

Definition error_count (l : list Event) : nat :=
  List.length (filter carries_error l).

(** From [s] to [s'] the text, the config and the host's references are
    kept and the element has not entered GUI mode. *)
Definition passive (s s' : State) : Prop :=
  _config s' = _config s
  /\ _yaml s' = _yaml s
  /\ hass s' = hass s
  /\ lovelace s' = lovelace s
  /\ (_GUImode s' = true -> _GUImode s = true).

(** The spinner is up only while a [getConfigElement] promise is awaited. *)
Definition loading_is_awaited (s : State) : Prop :=
  _loading s = true -> existsb awaits_element (pending s) = true.

(** Recorded and captured card types are non-empty strings, and an editor
    is mounted only together with a recorded type. *)
Definition types_are_truthy (s : State) : Prop :=
  match _configElType s with
  | Some t => truthy t = true
  | None => _configElement s = None
  end
  /\ Forall (fun k => truthy (captured_type k) = true) (pending s).

(** The mounted editor holds the [hass], the [lovelace] the element
    holds. *)
Definition editor_has_hass (s : State) : Prop :=
  match _configElement s with
  | Some el => el_hass el = Some (hass s)
  | None => True
  end.

Definition editor_has_lovelace (s : State) : Prop :=
  match _configElement s with
  | Some el => el_lovelace el = lovelace s
  | None => True
  end.

(** The actions that assign [hass], [lovelace]. *)
Definition assigns_hass (a : Action) : bool :=
  match a with
  | SetHass _ => true
  | _ => false
  end.

Definition assigns_lovelace (a : Action) : bool :=
  match a with
  | SetLovelace _ => true
  | _ => false
  end.

(** Every notification either carries an error or stands for one entry
    into [_updateConfigElement]. *)
Definition accounted (s : State) : Prop :=
  change_count (events s) = reconciliations s + error_count (events s).

(** ** Basic facts *)

Lemma change_count_app (l1 l2 : list Event) :
  change_count (l1 ++ l2)%list = change_count l1 + change_count l2.
Proof.
  unfold change_count. rewrite filter_app, length_app. reflexivity.
Qed.

Lemma quiet_refl (s : State) : quiet s s.
Proof. exists []. split; [now rewrite app_nil_r | reflexivity]. Qed.

Lemma quiet_trans (s1 s2 s3 : State) :
  quiet s1 s2 -> quiet s2 s3 -> quiet s1 s3.
Proof.
  intros [p1 [E1 C1]] [p2 [E2 C2]]. exists (p1 ++ p2)%list. split.
  - rewrite E2, E1, app_assoc. reflexivity.
  - rewrite change_count_app, C1, C2. reflexivity.
Qed.

Lemma quiet_same_events (s s' : State) : events s' = events s -> quiet s s'.
Proof. intros E. exists []. split; [now rewrite app_nil_r | reflexivity]. Qed.

Section Facts.

Variable env : Env.

(** The [catch] clause leaves the store and the mounted editor alone,
    switches to the YAML view and dispatches one [GUImode-changed]. *)
Lemma catch_clause_events (err : JsError) (s : State) :
  events (catch_clause err s) = (events s ++ [forced_raw])%list.
Proof.
  unfold catch_clause, finally_clause, GUImode_set, fireEvent, forced_raw.
  destruct (startsWith "WARNING:" (message err)); cbn;
    rewrite ?orb_true_r; reflexivity.
Qed.

Lemma catch_clause_frame (err : JsError) (s : State) :
  _config (catch_clause err s) = _config s
  /\ _yaml (catch_clause err s) = _yaml s
  /\ _configElement (catch_clause err s) = _configElement s
  /\ _configElType (catch_clause err s) = _configElType s
  /\ pending (catch_clause err s) = pending s
  /\ reconciliations (catch_clause err s) = reconciliations s
  /\ _GUImode (catch_clause err s) = false
  /\ _loading (catch_clause err s) = false.
Proof.
  unfold catch_clause.
  destruct (startsWith "WARNING:" (message err)); cbn; repeat split.
Qed.

Lemma catch_clause_quiet (err : JsError) (s : State) :
  quiet s (catch_clause err s).
Proof.
  exists [forced_raw]. split; [apply catch_clause_events | reflexivity].
Qed.

Lemma forward_config_quiet (s : State) : quiet s (forward_config env s).
Proof.
  unfold forward_config.
  destruct (_configElement s) as [el|]; [|apply catch_clause_quiet].
  destruct (setConfig (editor el) (value s));
    [apply catch_clause_quiet | apply quiet_same_events; reflexivity].
Qed.

Lemma forward_config_frame (s : State) :
  _config (forward_config env s) = _config s
  /\ _yaml (forward_config env s) = _yaml s
  /\ _configElement (forward_config env s) = _configElement s
  /\ _configElType (forward_config env s) = _configElType s
  /\ pending (forward_config env s) = pending s
  /\ reconciliations (forward_config env s) = reconciliations s
  /\ _loading (forward_config env s) = false.
Proof.
  unfold forward_config.
  destruct (_configElement s) as [el|] eqn:E.
  - destruct (setConfig (editor el) (value s)).
    + destruct (catch_clause_frame
                  {| message := "WARNING: " ++ message j |} s)
        as (H1 & H2 & H3 & H4 & H5 & H6 & _ & H8).
      rewrite H1, H2, H3, H4, H5, H6, H8, E. repeat split.
    + cbn. rewrite E. repeat split.
  - destruct (catch_clause_frame
                {| message :=
                     "WARNING: " ++ message (typeError env "setConfig") |} s)
      as (H1 & H2 & H3 & H4 & H5 & H6 & _ & H8).
    rewrite H1, H2, H3, H4, H5, H6, H8, E. repeat split.
Qed.

(** The synchronous part of [_updateConfigElement] never touches the
    store or the mounted editor, and counts one reconciliation. *)
Lemma _updateConfigElement_frame (s : State) :
  let s' := fst (_updateConfigElement env s) in
  _config s' = _config s
  /\ _yaml s' = _yaml s
  /\ _configElement s' = _configElement s
  /\ _configElType s' = _configElType s
  /\ pending s' = pending s
  /\ reconciliations s' = S (reconciliations s).
Proof.
  unfold _updateConfigElement, value. cbn.
  destruct (_config s) as [v|] eqn:Ev; cbn; [|rewrite Ev; repeat split].
  set (s1 := set_warning None
               (set_error None
                  (set_reconciliations (S (reconciliations s)) s))).
  destruct (strict_neq (_configElType s) (type v)).
  - destruct (type v) as [t|]; [destruct (truthy t)|]; cbn;
      try (rewrite Ev; repeat split);
      destruct (catch_clause_frame no_card_type s1)
        as (H1 & H2 & H3 & H4 & H5 & H6 & _);
      rewrite H1, H2, H3, H4, H5, H6; cbn; rewrite Ev; repeat split.
  - cbn. destruct (forward_config_frame s1)
      as (H1 & H2 & H3 & H4 & H5 & H6 & _).
    rewrite H1, H2, H3, H4, H5, H6; cbn; rewrite Ev; repeat split.
Qed.

Lemma _updateConfigElement_quiet (s : State) :
  quiet s (fst (_updateConfigElement env s)).
Proof.
  unfold _updateConfigElement, value. cbn.
  destruct (_config s) as [v|]; cbn;
    [|apply quiet_same_events; reflexivity].
  set (s1 := set_warning None
               (set_error None
                  (set_reconciliations (S (reconciliations s)) s))).
  assert (Q : quiet s s1) by (apply quiet_same_events; reflexivity).
  destruct (strict_neq (_configElType s) (type v)).
  - destruct (type v) as [t|]; [destruct (truthy t)|]; cbn;
      try exact Q;
      (eapply quiet_trans; [exact Q | apply catch_clause_quiet]).
  - cbn. eapply quiet_trans; [exact Q | apply forward_config_quiet].
Qed.

Lemma suspend_frame (k : option Continuation) (s : State) :
  _config (suspend k s) = _config s
  /\ _yaml (suspend k s) = _yaml s
  /\ _configElement (suspend k s) = _configElement s
  /\ _configElType (suspend k s) = _configElType s
  /\ _GUImode (suspend k s) = _GUImode s
  /\ _error (suspend k s) = _error s
  /\ _warning (suspend k s) = _warning s
  /\ events (suspend k s) = events s
  /\ reconciliations (suspend k s) = reconciliations s.
Proof. destruct k; cbn; repeat split. Qed.

(** [_setConfig] dispatches exactly one [config-changed], last, and that
    event reports the state in which [_setConfig] returns. *)
Lemma _setConfig_emits (s : State) : emits_one_change s (_setConfig env s).
Proof.
  unfold _setConfig.
  destruct (negb (truthy_error (_error s))).
  - destruct (_updateConfigElement_quiet s) as [pre [E C]].
    destruct (_updateConfigElement env s) as [s' k]. cbn in E.
    exists pre. split; [|exact C].
    unfold fireEvent. cbn.
    destruct (suspend_frame k s') as (_ & _ & _ & _ & _ & _ & _ & H8 & _).
    rewrite H8, E, <- app_assoc. reflexivity.
  - exists []. split; reflexivity.
Qed.

Lemma _setConfig_frame (s : State) :
  _config (_setConfig env s) = _config s
  /\ _yaml (_setConfig env s) = _yaml s
  /\ _configElement (_setConfig env s) = _configElement s
  /\ _configElType (_setConfig env s) = _configElType s.
Proof.
  unfold _setConfig.
  destruct (negb (truthy_error (_error s))); [|cbn; repeat split].
  destruct (_updateConfigElement_frame s) as (H1 & H2 & H3 & H4 & _).
  destruct (_updateConfigElement env s) as [s' k]. cbn in *.
  destruct (suspend_frame k s') as (G1 & G2 & G3 & G4 & _).
  rewrite G1, G2, G3, G4, H1, H2, H3, H4. repeat split.
Qed.

(** When [_error] is truthy on entry, [_setConfig] only dispatches. *)
Lemma _setConfig_blocked (s : State) :
  truthy_error (_error s) = true ->
  _setConfig env s = fireEvent (reports s) s.
Proof. intros T. unfold _setConfig. rewrite T. reflexivity. Qed.

(** When [_error] is falsy on entry, one reconciliation is started and
    [_error] is [undefined] on return. *)
Lemma _setConfig_reconciles (s : State) :
  truthy_error (_error s) = false ->
  _error (_setConfig env s) = None
  /\ reconciliations (_setConfig env s) = S (reconciliations s).
Proof.
  intros T. unfold _setConfig. rewrite T. cbn.
  destruct (_updateConfigElement_frame s) as (_ & _ & _ & _ & _ & H6).
  destruct (_updateConfigElement env s) as [s' k]. cbn in *.
  destruct (suspend_frame k s') as (_ & _ & _ & _ & _ & _ & _ & _ & G9).
  rewrite G9, H6. split; reflexivity.
Qed.

Lemma bind_element_quiet (cardType : string)
    (configElement : option LovelaceCardEditor) (s : State) :
  quiet s (bind_element env cardType configElement s).
Proof.
  unfold bind_element. destruct configElement as [ed|].
  - eapply quiet_trans; [|apply forward_config_quiet].
    apply quiet_same_events; reflexivity.
  - eapply quiet_trans; [|apply catch_clause_quiet].
    apply quiet_same_events; reflexivity.
Qed.

Lemma resume_quiet (k : Continuation) (s : State) :
  quiet s (fst (resume env k s)).
Proof.
  assert (L : quiet s (set_loading true s))
    by (apply quiet_same_events; reflexivity).
  destruct k as [cardType [[cls|]|err] | cardType [el|err]]; cbn;
    try apply catch_clause_quiet;
    try (eapply quiet_trans; [exact L | apply catch_clause_quiet]).
  - destruct (getConfigElement cls); cbn; [exact L|].
    eapply quiet_trans; [exact L | apply catch_clause_quiet].
  - apply bind_element_quiet.
Qed.

Lemma settle_quiet (n : nat) (s : State) : quiet s (settle env n s).
Proof.
  unfold settle. destruct (nth_error (pending s) n) as [k|];
    [|apply quiet_refl].
  set (s0 := set_pending (remove_nth n (pending s)) s).
  pose proof (resume_quiet k s0) as Q.
  destruct (resume env k s0) as [s1 k']. cbn in Q.
  eapply quiet_trans; [apply quiet_same_events; reflexivity|].
  eapply quiet_trans; [exact Q|].
  apply quiet_same_events. destruct k'; reflexivity.
Qed.

Lemma GUImode_set_quiet (g : bool) (s : State) : quiet s (GUImode_set g s).
Proof. eexists. split; [reflexivity | reflexivity]. Qed.

End Facts.

(** *** The ways out of [set value] *)

(** The guard on line 97 returns before anything is assigned. *)
Lemma value_set_current (env : Env) (config : option LovelaceCardConfig)
    (s : State) :
  is_current env config s = true -> value_set env config s = s.
Proof.
  unfold is_current, value_set, value_setter.
  destruct (_config s) as [cur|].
  - intros ->. reflexivity.
  - discriminate.
Qed.

(** Past the guard the setter stores a config and its dump, clears
    [_error] and calls [_setConfig]. *)
Lemma value_set_not_current (env : Env) (c : LovelaceCardConfig)
    (s : State) :
  is_current env (Some c) s = false ->
  value_set env (Some c) s =
  _setConfig env
    (set_error None
       (set_yaml (Some (safeDump env c)) (set_config (Some c) s))).
Proof.
  unfold is_current, value_set, value_setter.
  destruct (_config s) as [cur|].
  - intros ->. reflexivity.
  - reflexivity.
Qed.

(** Past the guard with [undefined], line 101 throws. *)
Lemma value_setter_undefined (env : Env) (s : State) :
  is_current env None s = false ->
  value_setter env None s = (set_config None s, Some (safeDump_undefined env)).
Proof.
  unfold is_current, value_setter. destruct (_config s) as [cur|].
  - intros ->. reflexivity.
  - reflexivity.
Qed.

Lemma value_set_cases (env : Env) (config : option LovelaceCardConfig)
    (s : State) :
  value_set env config s = s
  \/ (config = None /\ value_set env config s = set_config None s)
  \/ (exists c,
        config = Some c
        /\ value_set env config s =
           _setConfig env
             (set_error None
                (set_yaml (Some (safeDump env c))
                   (set_config (Some c) s)))).
Proof.
  destruct (is_current env config s) eqn:G.
  - left. apply value_set_current. exact G.
  - right. destruct config as [c|].
    + right. exists c. split; [reflexivity|].
      apply value_set_not_current. exact G.
    + left. split; [reflexivity|]. unfold value_set.
      rewrite value_setter_undefined by exact G. reflexivity.
Qed.

(** [updated] only touches the references of the mounted editor. *)
Lemma updated_frame (hc lc : bool) (s : State) :
  let s' := updated hc lc s in
  events s' = events s
  /\ pending s' = pending s
  /\ reconciliations s' = reconciliations s
  /\ _config s' = _config s
  /\ _yaml s' = _yaml s
  /\ _GUImode s' = _GUImode s
  /\ _loading s' = _loading s
  /\ _configElType s' = _configElType s
  /\ hass s' = hass s
  /\ lovelace s' = lovelace s
  /\ (_configElement s = None -> _configElement s' = None).
Proof.
  unfold updated, forward_hass, forward_lovelace.
  destruct hc, lc; destruct (_configElement s) as [el|] eqn:E; cbn;
    rewrite ?E; cbn; repeat split; try discriminate; auto.
Qed.

Lemma no_changes_are_strings (l : list Event) :
  change_count l = 0 -> Forall error_is_string l.
Proof.
  induction l as [|e l IH]; intros C; [constructor|].
  destruct e as [d|d]; [discriminate C|].
  constructor; [exact I | apply IH; exact C].
Qed.

Lemma quiet_keeps_strings (s s' : State) :
  quiet s s' ->
  Forall error_is_string (events s) -> Forall error_is_string (events s').
Proof.
  intros [pre [E C]] F. rewrite E. apply Forall_app. split; [exact F|].
  apply no_changes_are_strings; exact C.
Qed.

Lemma _setConfig_keeps_strings (env : Env) (s : State) :
  error_slot_is_string s ->
  Forall error_is_string (events s) ->
  Forall error_is_string (events (_setConfig env s)).
Proof.
  intros Hs F.
  assert (Hs' : error_slot_is_string (_setConfig env s)).
  { destruct (truthy_error (_error s)) eqn:T.
    - rewrite _setConfig_blocked by exact T. exact Hs.
    - unfold error_slot_is_string.
      destruct (_setConfig_reconciles env s T) as [-> _]. exact I. }
  destruct (_setConfig_emits env s) as [pre [E C]]. rewrite E.
  apply Forall_app. split; [exact F|].
  apply Forall_app. split; [apply no_changes_are_strings; exact C|].
  constructor; [|constructor].
  unfold reports, error_is_string. cbn. exact Hs'.
Qed.

Lemma yaml_set_keeps_strings (env : Env) (text : string) (s : State) :
  Forall error_is_string (events s) ->
  Forall error_is_string (events (yaml_set env text s)).
Proof.
  intros F. unfold yaml_set. apply _setConfig_keeps_strings.
  - destruct (safeLoad env _); exact I.
  - destruct (safeLoad env _); exact F.
Qed.

Lemma value_set_keeps_strings (env : Env)
    (config : option LovelaceCardConfig) (s : State) :
  Forall error_is_string (events s) ->
  Forall error_is_string (events (value_set env config s)).
Proof.
  intros F.
  destruct (value_set_cases env config s) as [-> | [[_ ->] | (c & _ & ->)]].
  - exact F.
  - exact F.
  - apply _setConfig_keeps_strings; [exact I | exact F].
Qed.

Lemma step_keeps_strings (env : Env) (a : Action) (s : State) :
  Forall error_is_string (events s) ->
  Forall error_is_string (events (step env a s)).
Proof.
  intros F. destruct a; unfold step.
  - apply yaml_set_keeps_strings; exact F.
  - apply value_set_keeps_strings; exact F.
  - eapply quiet_keeps_strings; [apply GUImode_set_quiet | exact F].
  - eapply quiet_keeps_strings; [apply GUImode_set_quiet | exact F].
  - apply value_set_keeps_strings; exact F.
  - unfold _handleYAMLChanged. destruct (negb _); [|exact F].
    apply yaml_set_keeps_strings; exact F.
  - exact F.
  - exact F.
  - destruct (updated_frame hassChanged lovelaceChanged s) as (-> & _).
    exact F.
  - eapply quiet_keeps_strings; [apply settle_quiet | exact F].
Qed.

Lemma no_classification_iff (s : State) :
  negb (hasWarning s || hasError s) = true
  <-> errorState s = NoClassification.
Proof.
  unfold hasWarning, hasError, errorState.
  destruct (_error s), (_warning s); cbn; split; congruence.
Qed.

Lemma truthy_nonempty (m : string) : m <> "" -> truthy m = true.
Proof.
  intros N. unfold truthy. apply negb_true_iff. apply String.eqb_neq. exact N.
Qed.

Lemma emits_from_same_log (s0 s s' : State) :
  events s = events s0 -> emits_one_change s s' -> emits_one_change s0 s'.
Proof. intros E [pre [H C]]. exists pre. rewrite <- E. split; assumption. Qed.

Lemma emits_counts_one (s s' : State) :
  emits_one_change s s' ->
  change_count (events s') = S (change_count (events s)).
Proof.
  intros [pre [E C]]. rewrite E, !change_count_app, C. cbn. lia.
Qed.

Lemma substring_all (s : string) : substring 0 (String.length s) s = s.
Proof. induction s as [|c s IH]; cbn; [reflexivity | now rewrite IH]. Qed.

(** [substr(8)] takes the marker off a marked message. *)
Lemma substr_warning (m : string) : substr 8 ("WARNING:" ++ m) = m.
Proof.
  unfold substr. cbn. rewrite Nat.sub_0_r. apply substring_all.
Qed.

Lemma startsWith_warning (m : string) :
  startsWith "WARNING:" (message {| message := "WARNING:" ++ m |}) = true.
Proof. unfold startsWith. cbn. destruct m; reflexivity. Qed.

(** A thrown message that carries the marker becomes the warning. *)
Lemma catch_clause_warning (m : string) (s : State) :
  _warning (catch_clause {| message := "WARNING:" ++ m |} s) = Some m
  /\ _error (catch_clause {| message := "WARNING:" ++ m |} s) = _error s.
Proof.
  unfold catch_clause. rewrite startsWith_warning.
  cbn -[substr append]. rewrite substr_warning. split; reflexivity.
Qed.

Lemma run_keeps_strings (env : Env) (acts : list Action) (s : State) :
  Forall error_is_string (events s) ->
  Forall error_is_string (events (run env acts s)).
Proof.
  revert s. induction acts as [|a acts IH]; intros s F; [exact F|].
  cbn. apply IH. apply step_keeps_strings. exact F.
Qed.

(** A lookup that finds no form editor ends the run with a warning and
    leaves [_configElement] and [_configElType] as they were. *)
Lemma no_form_editor_keeps_mounted (env : Env) (cardType : string)
    (elClass : option CardElementClass) (s : State) :
  match elClass with
  | Some cls => getConfigElement cls = None
  | None => True
  end ->
  let r := resume env (AwaitCardElementClass cardType (Returns elClass)) s in
  snd r = None
  /\ _configElement (fst r) = _configElement s
  /\ _configElType (fst r) = _configElType s
  /\ _warning (fst r) = Some (" No visual editor available for: " ++ cardType)
  /\ _GUImode (fst r) = false
  /\ _loading (fst r) = false.
Proof.
  intros H. cbn.
  assert (E : resume env (AwaitCardElementClass cardType (Returns elClass)) s
              = (catch_clause (no_visual_editor cardType)
                   (set_loading true s), None)).
  { cbn. destruct elClass as [cls|]; [rewrite H|]; reflexivity. }
  cbn in E. rewrite E. cbn -[catch_clause].
  destruct (catch_clause_frame (no_visual_editor cardType)
              (set_loading true s)) as (_ & _ & H3 & H4 & _ & _ & H7 & H8).
  rewrite H3, H4, H7, H8.
  change (no_visual_editor cardType) with
    {| message := "WARNING:" ++ " No visual editor available for: "
                  ++ cardType |}.
  destruct (catch_clause_warning
              (" No visual editor available for: " ++ cardType)
              (set_loading true s)) as [W _].
  rewrite W. repeat split.
Qed.

(** ** The flag [guiModeAvailable] *)

(** C1, as stated, fails: with a warning and no error the flag is [false].
    After the lookup for ["unknown-type"] found nothing the element holds a
    warning only, and the next [GUImode-changed] carries [false]; and when
    the mounted markdown editor rejects a config, the [config-changed] of
    that very call carries [false] with no error. *)
Lemma warning_makes_gui_mode_unavailable :
  (let s := run Scenario.env
              [SetValue (Some Scenario.unknown_card); Settle 0]
              Scenario.start in
   errorState s = Warning " No visual editor available for: unknown-type"
   /\ events (toggleMode s) =
      (events s ++
       [EvGUImodeChanged
          {| GUIModeChanged.guiMode := true;
             GUIModeChanged.guiModeAvailable := false |}])%list)
  /\
  (let s := mounted Scenario.env Scenario.markdown_card Scenario.start in
   let s' := value_set Scenario.env
               (Some Scenario.markdown_without_content) s in
   errorState s' = Warning " Content required"
   /\ events s' =
      (events s ++
       [forced_raw;
        EvConfigChanged
          {| ConfigChanged.config := Some Scenario.markdown_without_content;
             ConfigChanged.error := None;
             ConfigChanged.guiModeAvailable := false |}])%list).
Proof. vm_compute. repeat split. Qed.

(** C1, amended: in a [GUImode-changed] and in a [config-changed] event the
    flag [guiModeAvailable] is [true] exactly when the element holds neither
    an error nor a warning at the moment the event is dispatched. *)
Theorem guiModeAvailable_iff_no_classification (env : Env) (s : State) :
  (forall g, exists d,
      events (GUImode_set g s) = (events s ++ [EvGUImodeChanged d])%list
      /\ GUIModeChanged.guiMode d = g
      /\ errorState (GUImode_set g s) = errorState s
      /\ (GUIModeChanged.guiModeAvailable d = true
          <-> errorState s = NoClassification))
  /\
  (exists pre d,
      events (_setConfig env s) =
        (events s ++ pre ++ [EvConfigChanged d])%list
      /\ change_count pre = 0
      /\ (ConfigChanged.guiModeAvailable d = true
          <-> errorState (_setConfig env s) = NoClassification)).
Proof.
  split.
  - intros g. eexists. split; [reflexivity|]. cbn. repeat split.
    + intros H. apply (no_classification_iff (set_GUImode g s)) in H.
      exact H.
    + intros H. apply (no_classification_iff (set_GUImode g s)). exact H.
  - destruct (_setConfig_emits env s) as [pre [E C]].
    exists pre. eexists. split; [exact E|]. split; [exact C|].
    cbn. apply no_classification_iff.
Qed.

(** ** Lookups that find no form editor *)

(** C2 on a concrete session: an editor for card type ["a"] is mounted, the
    config changes to ["unknown-type"] (no class) or to ["picture"] (a class
    without form editor).  The run ends with the warning and the YAML view,
    but the editor for ["a"] is still mounted and still recorded. *)
Theorem no_form_editor_leaves_old_editor_mounted :
  let s := mounted Scenario.env Scenario.card_a Scenario.start in
  option_map (fun el => tag (editor el)) (_configElement s)
    = Some "hui-a-card-editor"
  /\ (let s' := run Scenario.env
                  [SetValue (Some Scenario.unknown_card); Settle 0] s in
      _configElement s' = _configElement s
      /\ _configElType s' = Some "a"
      /\ _warning s' = Some " No visual editor available for: unknown-type"
      /\ _error s' = None
      /\ _GUImode s' = false
      /\ pending s' = [])
  /\ (let s' := run Scenario.env
                  [SetValue (Some Scenario.picture_card); Settle 0] s in
      _configElement s' = _configElement s
      /\ _configElType s' = Some "a"
      /\ _warning s' = Some " No visual editor available for: picture"
      /\ _error s' = None
      /\ _GUImode s' = false
      /\ pending s' = []).
Proof. vm_compute. repeat split. Qed.

(** ** One notification per edit *)

(** C3 on a concrete session.  The config of a fresh element is set to card
    type ["unknown-type"], for which no class is found.  The call on line
    109 is not awaited: the [config-changed] is dispatched while the run of
    [_updateConfigElement] is suspended on the lookup, and it says that
    there is no error and that GUI mode is available.  The run then ends
    with a warning and in the YAML view, and no [config-changed] follows:
    the one notification of the edit does not tell the state the
    reconciliation ends in. *)
Theorem notification_precedes_end_of_reconciliation :
  let s := value_set Scenario.env (Some Scenario.unknown_card)
             Scenario.start in
  let s' := settle Scenario.env 0 s in
  pending s = [AwaitCardElementClass "unknown-type" (Returns None)]
  /\ events s =
     [EvConfigChanged
        {| ConfigChanged.config := Some Scenario.unknown_card;
           ConfigChanged.error := None;
           ConfigChanged.guiModeAvailable := true |}]
  /\ pending s' = []
  /\ errorState s' =
     Warning " No visual editor available for: unknown-type"
  /\ GUImode s' = false
  /\ events s' = (events s ++ [forced_raw])%list
  /\ change_count (events s') = 1.
Proof. vm_compute. repeat split. Qed.

(** ** A config without card type *)

(** C4 on two concrete sessions.  On a fresh element a config without
    [type] is not compared unequal to the (equally undefined) recorded type,
    line 245 is not reached, and the call on the missing editor ends in a
    warning.  With an editor for ["a"] mounted, line 245 throws and
    [_error] receives the error, the view switches, but [_setConfig]
    clears [_error] on line 110 before it dispatches: the notification
    carries no error and the element holds no classification at all. *)
Theorem typeless_config_is_not_reported_fatal :
  (let s' := value_set Scenario.env (Some Scenario.typeless_card)
               Scenario.start in
   errorState s' = Warning " Cannot read property 'setConfig' of undefined"
   /\ events s' =
      [forced_raw;
       EvConfigChanged
         {| ConfigChanged.config := Some Scenario.typeless_card;
            ConfigChanged.error := None;
            ConfigChanged.guiModeAvailable := false |}]
   /\ pending s' = [])
  /\
  (let s := mounted Scenario.env Scenario.card_a Scenario.start in
   let s' := value_set Scenario.env (Some Scenario.typeless_card) s in
   _error (fst (_updateConfigElement Scenario.env
                  (set_config (Some Scenario.typeless_card) s)))
     = Some (ErrObject no_card_type)
   /\ errorState s' = NoClassification
   /\ _GUImode s' = false
   /\ events s' =
      (events s ++
       [forced_raw;
        EvConfigChanged
          {| ConfigChanged.config := Some Scenario.typeless_card;
             ConfigChanged.error := None;
             ConfigChanged.guiModeAvailable := true |}])%list
   /\ pending s' = []).
Proof. vm_compute. repeat split. Qed.

(** ** Text that does not parse *)

(** What [set yaml] does with text that [safeLoad] rejects with a non-empty
    message: it keeps the text, stores the message and only dispatches. *)
Lemma yaml_set_rejected (env : Env) (s : State) (text : string)
    (err : JsError) :
  safeLoad env text = Throws err ->
  message err <> "" ->
  yaml_set env text s =
  let s1 := set_error (Some (ErrMessage (message err)))
              (set_yaml (Some text) s) in
  fireEvent (reports s1) s1.
Proof.
  intros L N. unfold yaml_set.
  change (yaml (set_yaml (Some text) s)) with text. rewrite L.
  apply _setConfig_blocked. cbn. apply truthy_nonempty. exact N.
Qed.

(** C5, as stated, fails: the element shows the markdown form editor in GUI
    mode, the host assigns text that does not parse, and the element is
    still in GUI mode afterwards. *)
Lemma parse_failure_keeps_gui_mode :
  let s := mounted Scenario.env Scenario.markdown_card Scenario.start in
  let s' := yaml_set Scenario.env Scenario.bad_text s in
  (exists err, safeLoad Scenario.env Scenario.bad_text = Throws err)
  /\ defined (_configElement s) = true
  /\ GUImode s = true
  /\ hasError s' = true
  /\ GUImode s' = true.
Proof. vm_compute. repeat split. eexists. reflexivity. Qed.

(** C5, amended: when the text of a [set yaml] does not parse, the element
    holds the parser's message as its error, the [config-changed] it
    dispatches carries that message and [guiModeAvailable = false], also
    with a form editor mounted; the display mode and the mounted editor stay
    as they were. *)
Theorem parse_failure_is_fatal_and_keeps_mode (env : Env) (s : State)
    (text : string) (err : JsError) :
  safeLoad env text = Throws err ->
  message err <> "" ->
  let s' := yaml_set env text s in
  errorState s' = Error (ErrMessage (message err))
  /\ GUImode s' = GUImode s
  /\ _configElement s' = _configElement s
  /\ _configElType s' = _configElType s
  /\ events s' =
     (events s ++
      [EvConfigChanged
         {| ConfigChanged.config := value s;
            ConfigChanged.error := Some (ErrMessage (message err));
            ConfigChanged.guiModeAvailable := false |}])%list.
Proof.
  intros L N. cbv zeta. rewrite (yaml_set_rejected env s text err L N).
  unfold errorState, reports, fireEvent, hasError, hasWarning. cbn.
  rewrite orb_true_r. repeat split.
Qed.

Lemma parse_failure_is_fatal_and_keeps_mode_witness :
  let s := mounted Scenario.env Scenario.markdown_card Scenario.start in
  let s' := yaml_set Scenario.env Scenario.bad_text s in
  errorState s' =
    Error (ErrMessage
             "bad indentation of a mapping entry at line 1, column 10")
  /\ GUImode s' = GUImode s.
Proof.
  pose proof
    (parse_failure_is_fatal_and_keeps_mode Scenario.env
       (mounted Scenario.env Scenario.markdown_card Scenario.start)
       Scenario.bad_text
       {| message :=
            "bad indentation of a mapping entry at line 1, column 10" |}
       eq_refl ltac:(discriminate)) as H.
  cbv zeta in *. destruct H as (H1 & H2 & _). split; [exact H1 | exact H2].
Defined.

(** C6: when the text of a [set yaml] does not parse, [_error] becomes the
    parser's message, the config the element held is still what [value]
    returns, and [yaml] returns the text just assigned.  (A message is a
    non-empty string; an empty one would be falsy on line 107.) *)
Theorem parse_failure_keeps_last_config (env : Env) (s : State)
    (text : string) (err : JsError) :
  safeLoad env text = Throws err ->
  message err <> "" ->
  let s' := yaml_set env text s in
  _error s' = Some (ErrMessage (message err))
  /\ value s' = value s
  /\ yaml s' = text.
Proof.
  intros L N. cbv zeta. rewrite (yaml_set_rejected env s text err L N).
  cbn. repeat split.
Qed.

Lemma parse_failure_keeps_last_config_witness :
  let s := mounted Scenario.env Scenario.markdown_card Scenario.start in
  let s' := yaml_set Scenario.env Scenario.bad_text s in
  _error s' =
    Some (ErrMessage
            "bad indentation of a mapping entry at line 1, column 10")
  /\ value s' = Some Scenario.markdown_card
  /\ yaml s' = Scenario.bad_text.
Proof.
  exact
    (parse_failure_keeps_last_config Scenario.env
       (mounted Scenario.env Scenario.markdown_card Scenario.start)
       Scenario.bad_text
       {| message :=
            "bad indentation of a mapping entry at line 1, column 10" |}
       eq_refl ltac:(discriminate)).
Defined.

(** ** Lookups that are overtaken *)

(** C7, as stated, fails: the config is set to card ["a"] and then to card
    ["b"] while the lookup for ["a"] is pending.  The lookup for ["b"]
    completes first and its editor is mounted; when the lookup for ["a"]
    completes, its editor replaces the one for ["b"] and ["a"] is recorded,
    although the config still is card ["b"]. *)
Lemma stale_lookup_overwrites_newer_bind :
  let s0 := run Scenario.env
              [SetValue (Some Scenario.card_a);
               SetValue (Some Scenario.card_b)] Scenario.start in
  let s1 := run Scenario.env [Settle 1; Settle 1] s0 in
  let s2 := run Scenario.env [Settle 0; Settle 0] s1 in
  pending s0 =
    [AwaitCardElementClass "a" (Scenario.catalogue "a");
     AwaitCardElementClass "b" (Scenario.catalogue "b")]
  /\ option_map (fun el => tag (editor el)) (_configElement s1)
       = Some "hui-b-card-editor"
  /\ _configElType s1 = Some "b"
  /\ pending s1 = [AwaitCardElementClass "a" (Scenario.catalogue "a")]
  /\ value s2 = Some Scenario.card_b
  /\ option_map (fun el => tag (editor el)) (_configElement s2)
       = Some "hui-a-card-editor"
  /\ _configElType s2 = Some "a".
Proof. vm_compute. repeat split. Qed.

(** C7, amended: a lookup started for card type [d] makes no staleness
    check.  The first await hands [d] on to the second; when the second
    settles, the run commits its bind whatever the config has become in the
    meantime: the mounted editor is the one resolved for [d], the recorded
    type is [d], and the config the element holds at that moment is handed
    to that editor, whose verdict decides the outcome: accepted, nothing
    else changes; rejected, its message becomes the warning and the element
    switches to the YAML view. *)
Theorem pending_lookup_always_commits (env : Env) (d : string)
    (ed : LovelaceCardEditor) (p : Outcome (option LovelaceCardEditor))
    (s1 s2 : State) :
  resume env
    (AwaitCardElementClass d
       (Returns (Some {| getConfigElement := Some p |}))) s1
  = (set_loading true s1, Some (AwaitConfigElement d p))
  /\
  (let r := resume env (AwaitConfigElement d (Returns (Some ed))) s2 in
   snd r = None
   /\ option_map editor (_configElement (fst r)) = Some ed
   /\ _configElType (fst r) = Some d
   /\ value (fst r) = value s2
   /\ _loading (fst r) = false
   /\ match setConfig ed (value s2) with
      | None =>
          _warning (fst r) = _warning s2
          /\ _error (fst r) = _error s2
          /\ GUImode (fst r) = GUImode s2
          /\ events (fst r) = events s2
      | Some err =>
          _warning (fst r) = Some (" " ++ message err)
          /\ _error (fst r) = _error s2
          /\ GUImode (fst r) = false
          /\ events (fst r) = (events s2 ++ [forced_raw])%list
      end).
Proof.
  split; [reflexivity|].
  unfold resume, bind_element. cbn [fst snd].
  match goal with
  | |- context [forward_config env ?x] =>
      destruct (forward_config_frame env x) as (H1 & _ & H3 & H4 & _ & _ & H7);
      set (s3 := x) in *
  end.
  unfold value. rewrite H1, H3, H4, H7.
  split; [reflexivity|]. split; [reflexivity|]. split; [reflexivity|].
  split; [reflexivity|]. split; [reflexivity|].
  unfold forward_config, value, GUImode.
  change (_configElement s3)
    with (Some {| editor := ed; el_hass := Some (hass s2);
                  el_lovelace := lovelace s2; el_listeners := 1 |}).
  change (_config s3) with (_config s2). cbn [editor].
  destruct (setConfig ed (_config s2)) as [err|].
  - change {| message := "WARNING: " ++ message err |}
      with {| message := "WARNING:" ++ " " ++ message err |}.
    destruct (catch_clause_warning (" " ++ message err) s3) as [W E].
    destruct (catch_clause_frame
                {| message := "WARNING:" ++ " " ++ message err |} s3)
      as (_ & _ & _ & _ & _ & _ & G & _).
    rewrite W, E, G, catch_clause_events. repeat split.
  - repeat split.
Qed.

(** ** The guard of [set value] *)

(** C8: an assignment to [value] of a config deeply equal to the config
    the element holds is a no-op: the setter returns at the guard, nothing
    is thrown, and the state is exactly what it was (no reconciliation, no
    notification).  Hence assigning a config [c] (deeply equal to itself)
    twice gives exactly one reconciliation and one [config-changed], both
    from the first call, and the second call leaves the state of the first;
    when the element held [c] already, neither call does anything. *)
Theorem setConfig_noop_on_held_config (env : Env) (s : State) :
  (forall config cur,
      _config s = Some cur ->
      deepEqual env config (Some cur) = true ->
      value_setter env config s = (s, None))
  /\
  (forall c,
      deepEqual env (Some c) (Some c) = true ->
      let s1 := value_set env (Some c) s in
      let s2 := value_set env (Some c) s1 in
      s2 = s1
      /\ if is_current env (Some c) s
         then s1 = s
         else reconciliations s2 = S (reconciliations s)
              /\ change_count (events s2) = S (change_count (events s))).
Proof.
  split.
  - intros config cur Hc He. unfold value_setter. rewrite Hc, He.
    reflexivity.
  - intros c Hrefl. cbv zeta.
    destruct (is_current env (Some c) s) eqn:Hnew.
    + rewrite (value_set_current env (Some c) s Hnew).
      rewrite (value_set_current env (Some c) s Hnew).
      split; reflexivity.
    + assert (Hheld : is_current env (Some c) (value_set env (Some c) s)
                      = true).
      { rewrite value_set_not_current by exact Hnew. unfold is_current.
        destruct (_setConfig_frame env
                    (set_error None
                       (set_yaml (Some (safeDump env c))
                          (set_config (Some c) s)))) as [-> _].
        cbn. exact Hrefl. }
      rewrite (value_set_current env (Some c) _ Hheld).
      split; [reflexivity|].
      rewrite value_set_not_current by exact Hnew. split.
      * apply (_setConfig_reconciles env
                 (set_error None
                    (set_yaml (Some (safeDump env c))
                       (set_config (Some c) s)))).
        reflexivity.
      * apply (emits_counts_one
                 (set_error None
                    (set_yaml (Some (safeDump env c))
                       (set_config (Some c) s)))).
        apply _setConfig_emits.
Qed.

Lemma setConfig_noop_on_held_config_witness :
  (let s := mounted Scenario.env Scenario.card_a Scenario.start in
   value_setter Scenario.env (Some Scenario.card_a) s = (s, None))
  /\
  (let s1 := value_set Scenario.env (Some Scenario.card_a) Scenario.start in
   let s2 := value_set Scenario.env (Some Scenario.card_a) s1 in
   s2 = s1
   /\ reconciliations s2 = 1
   /\ change_count (events s2) = 1).
Proof.
  split.
  - exact (proj1 (setConfig_noop_on_held_config Scenario.env
                    (mounted Scenario.env Scenario.card_a Scenario.start))
             (Some Scenario.card_a) Scenario.card_a eq_refl eq_refl).
  - exact (proj2 (setConfig_noop_on_held_config Scenario.env Scenario.start)
             Scenario.card_a eq_refl).
Defined.

(** C10 as the code has it.  While the element holds no config, every
    assignment to [value] goes past the guard.  With a config the setter
    replaces the config, derives the text from it, enters
    [_updateConfigElement] and dispatches one more [config-changed].  With
    [undefined] it goes past the guard as well, stores the config on line
    100, and then [safeDump(undefined)] throws on line 101: the text is not
    derived again, [_error] is not cleared, nothing is reconciled and
    nothing is dispatched. *)
Theorem setConfig_without_held_config (env : Env) (s : State) :
  _config s = None ->
  (forall c,
      let s' := value_set env (Some c) s in
      value_setter env (Some c) s = (s', None)
      /\ _config s' = Some c
      /\ _yaml s' = Some (safeDump env c)
      /\ reconciliations s' = S (reconciliations s)
      /\ change_count (events s') = S (change_count (events s))
      /\ emits_one_change s s')
  /\
  (let s' := value_set env None s in
   value_setter env None s = (s', Some (safeDump_undefined env))
   /\ _config s' = None
   /\ _yaml s' = _yaml s
   /\ _error s' = _error s
   /\ reconciliations s' = reconciliations s
   /\ events s' = events s).
Proof.
  intros Hn. split.
  - intros c. cbv zeta.
    assert (G : is_current env (Some c) s = false)
      by (unfold is_current; rewrite Hn; reflexivity).
    split.
    { unfold value_set, value_setter. rewrite Hn. reflexivity. }
    rewrite value_set_not_current by exact G.
    set (s0 := set_error None
                 (set_yaml (Some (safeDump env c))
                    (set_config (Some c) s))).
    destruct (_setConfig_frame env s0) as (H1 & H2 & _).
    assert (E : emits_one_change s (_setConfig env s0))
      by (eapply emits_from_same_log; [|apply _setConfig_emits];
          reflexivity).
    rewrite H1, H2. repeat split.
    + apply (_setConfig_reconciles env s0). reflexivity.
    + apply emits_counts_one. exact E.
    + exact E.
  - cbv zeta. unfold value_set, value_setter. rewrite Hn. cbn.
    repeat split.
Qed.

Lemma setConfig_without_held_config_witness :
  (let s' := value_set Scenario.env (Some Scenario.card_a)
               Scenario.start in
   _config s' = Some Scenario.card_a
   /\ change_count (events s') = 1)
  /\
  (let s' := value_set Scenario.env None Scenario.start in
   value_setter Scenario.env None Scenario.start
   = (s', Some {| message :=
        "unacceptable kind of an object to dump [object Undefined]" |})
   /\ _yaml s' = None
   /\ events s' = []).
Proof.
  destruct (setConfig_without_held_config Scenario.env Scenario.start
              eq_refl) as [A B].
  split.
  - destruct (A Scenario.card_a) as (_ & H2 & _ & _ & H5 & _).
    cbv zeta. split; [exact H2 | exact H5].
  - cbv zeta in *. destruct B as (B1 & _ & B3 & _ & _ & B6).
    split; [exact B1|]. split; [exact B3 | exact B6].
Defined.

(** ** The error field of the notification *)

(** [_error] itself can hold an [Error] object: here the lookup rejects. *)
Example error_slot_can_hold_an_object :
  let s := run Scenario.env
             [SetValue (Some {| type := Some "gauge"; fields := [] |});
              Settle 0] Scenario.start in
  _error s = Some (ErrObject {| message := "Unknown type: gauge" |})
  /\ Forall error_is_string (events s).
Proof.
  split; [reflexivity|]. apply run_keeps_strings. constructor.
Qed.

(** C9: whatever happens to an element from its construction on, every
    [config-changed] it dispatches carries an [error] that is absent or a
    string, never an [Error] object. *)
Theorem change_notification_error_is_string (env : Env)
    (acts : list Action) (h : HomeAssistant) :
  Forall error_is_string (events (run env acts (initial h))).
Proof. apply run_keeps_strings. constructor. Qed.

(** ** Further properties of the element *)

Lemma passive_refl (s : State) : passive s s.
Proof. unfold passive. repeat split. intros H; exact H. Qed.

Lemma passive_trans (s1 s2 s3 : State) :
  passive s1 s2 -> passive s2 s3 -> passive s1 s3.
Proof.
  intros (A1 & A2 & A3 & A4 & A5) (B1 & B2 & B3 & B4 & B5).
  unfold passive. rewrite B1, B2, B3, B4, A1, A2, A3, A4.
  repeat split. intros H. apply A5, B5, H.
Qed.

Lemma catch_clause_passive (err : JsError) (s : State) :
  passive s (catch_clause err s).
Proof.
  unfold passive, catch_clause.
  destruct (startsWith "WARNING:" (message err)); cbn;
    repeat split; discriminate.
Qed.

Lemma forward_config_passive (env : Env) (s : State) :
  passive s (forward_config env s).
Proof.
  unfold forward_config.
  destruct (_configElement s) as [el|]; [|apply catch_clause_passive].
  destruct (setConfig (editor el) (value s));
    [apply catch_clause_passive|].
  unfold passive. cbn. repeat split. intros H; exact H.
Qed.

Lemma bind_element_passive (env : Env) (cardType : string)
    (configElement : option LovelaceCardEditor) (s : State) :
  passive s (bind_element env cardType configElement s).
Proof.
  unfold bind_element. destruct configElement as [ed|].
  - eapply passive_trans; [|apply forward_config_passive].
    unfold passive. cbn. repeat split. intros H; exact H.
  - eapply passive_trans; [|apply catch_clause_passive].
    unfold passive. cbn. repeat split. intros H; exact H.
Qed.

Lemma set_loading_passive (b : bool) (s : State) :
  passive s (set_loading b s).
Proof. unfold passive. cbn. repeat split. intros H; exact H. Qed.

Lemma resume_passive (env : Env) (k : Continuation) (s : State) :
  passive s (fst (resume env k s)).
Proof.
  destruct k as [cardType [[cls|]|err] | cardType [el|err]]; cbn [resume fst];
    try apply catch_clause_passive;
    try (eapply passive_trans;
         [apply (set_loading_passive true) | apply catch_clause_passive]).
  - destruct (getConfigElement cls); cbn [fst];
      [apply set_loading_passive|].
    eapply passive_trans;
      [apply (set_loading_passive true) | apply catch_clause_passive].
  - apply bind_element_passive.
Qed.

Lemma _updateConfigElement_passive (env : Env) (s : State) :
  passive s (fst (_updateConfigElement env s)).
Proof.
  unfold _updateConfigElement, value. cbn.
  destruct (_config s) as [v|]; cbn [fst];
    [|unfold passive; cbn; repeat split; intros H; exact H].
  set (s1 := set_warning None
               (set_error None
                  (set_reconciliations (S (reconciliations s)) s))).
  assert (Q : passive s s1)
    by (unfold passive; cbn; repeat split; intros H; exact H).
  destruct (strict_neq (_configElType s) (type v)).
  - destruct (type v) as [t|]; [destruct (truthy t)|]; cbn [fst];
      try exact Q;
      (eapply passive_trans; [exact Q | apply catch_clause_passive]).
  - cbn [fst]. eapply passive_trans; [exact Q|apply forward_config_passive].
Qed.

Lemma suspend_passive (k : option Continuation) (s : State) :
  passive s (suspend k s).
Proof. destruct k; unfold passive; cbn; repeat split; intros H; exact H. Qed.

Lemma _setConfig_passive (env : Env) (s : State) :
  passive s (_setConfig env s).
Proof.
  unfold _setConfig.
  destruct (negb (truthy_error (_error s))).
  - pose proof (_updateConfigElement_passive env s) as P.
    destruct (_updateConfigElement env s) as [s' k]. cbn [fst] in P.
    eapply passive_trans; [exact P|].
    eapply passive_trans; [apply (suspend_passive k)|].
    unfold passive. cbn. repeat split. intros H; exact H.
  - unfold passive. cbn. repeat split. intros H; exact H.
Qed.

Lemma settle_passive (env : Env) (n : nat) (s : State) :
  passive s (settle env n s).
Proof.
  unfold settle. destruct (nth_error (pending s) n) as [k|];
    [|apply passive_refl].
  set (s0 := set_pending (remove_nth n (pending s)) s).
  pose proof (resume_passive env k s0) as P.
  destruct (resume env k s0) as [s1 k']. cbn [fst] in P.
  eapply passive_trans; [|apply suspend_passive].
  eapply passive_trans; [|exact P].
  unfold passive. cbn. repeat split. intros H; exact H.
Qed.

(** The mode is never switched to GUI by an edit. *)
Lemma yaml_set_keeps_raw (env : Env) (text : string) (s : State) :
  _GUImode (yaml_set env text s) = true -> _GUImode s = true.
Proof.
  unfold yaml_set. intros H.
  apply (_setConfig_passive env) in H.
  destruct (safeLoad env _); exact H.
Qed.

Lemma value_set_keeps_raw (env : Env) (config : option LovelaceCardConfig)
    (s : State) :
  _GUImode (value_set env config s) = true -> _GUImode s = true.
Proof.
  destruct (value_set_cases env config s) as [-> | [[_ ->] | (c & _ & ->)]];
    intros H.
  - exact H.
  - exact H.
  - apply (_setConfig_passive env) in H. exact H.
Qed.

(** X1: the element never enters GUI mode on its own.  After any action
    other than [toggleMode] or an assignment to [GUImode] (an edit of text
    or config, a change of [hass] or [lovelace], a promise that settles)
    the element is in GUI mode only if it was before. *)
Theorem only_mode_actions_enter_gui_mode (env : Env) (a : Action)
    (s : State) :
  is_mode_action a = false ->
  GUImode (step env a s) = true -> GUImode s = true.
Proof.
  unfold GUImode. destruct a; cbn [is_mode_action step]; intros M H;
    try discriminate M.
  - apply (yaml_set_keeps_raw env text). exact H.
  - apply (value_set_keeps_raw env config). exact H.
  - apply (value_set_keeps_raw env (Some config)). exact H.
  - unfold _handleYAMLChanged in H. destruct (negb _); [|exact H].
    apply (yaml_set_keeps_raw env newYaml). exact H.
  - exact H.
  - exact H.
  - destruct (updated_frame hassChanged lovelaceChanged s)
      as (_ & _ & _ & _ & _ & G & _).
    rewrite G in H. exact H.
  - apply (settle_passive env n s). exact H.
Qed.

Lemma only_mode_actions_enter_gui_mode_witness :
  GUImode (step Scenario.env (SetValue (Some Scenario.card_a))
             Scenario.start) = true.
Proof.
  exact (only_mode_actions_enter_gui_mode Scenario.env (Settle 0)
           (step Scenario.env (SetValue (Some Scenario.card_a))
              Scenario.start) eq_refl eq_refl).
Defined.

(** X2: only an edit changes the store.  Toggling the mode, a change of
    [hass] or [lovelace] and, above all, a lookup that completes later
    leave the config and the text exactly as they are. *)
Theorem only_edits_change_the_store (env : Env) (a : Action) (s : State) :
  is_edit a = false ->
  value (step env a s) = value s /\ yaml (step env a s) = yaml s.
Proof.
  unfold value, yaml.
  destruct a; cbn [is_edit step]; intros E; try discriminate E.
  - split; reflexivity.
  - split; reflexivity.
  - split; reflexivity.
  - split; reflexivity.
  - destruct (updated_frame hassChanged lovelaceChanged s)
      as (_ & _ & _ & H4 & H5 & _).
    rewrite H4, H5. split; reflexivity.
  - destruct (settle_passive env n s) as (H1 & H2 & _).
    rewrite H1, H2. split; reflexivity.
Qed.

Lemma only_edits_change_the_store_witness :
  let s := run Scenario.env
             [SetValue (Some Scenario.card_a);
              SetValue (Some Scenario.card_b)] Scenario.start in
  value (step Scenario.env (Settle 0) s) = Some Scenario.card_b
  /\ yaml (step Scenario.env (Settle 0) s) = yaml s.
Proof.
  exact (only_edits_change_the_store Scenario.env (Settle 0)
           (run Scenario.env
              [SetValue (Some Scenario.card_a);
               SetValue (Some Scenario.card_b)] Scenario.start) eq_refl).
Defined.

(** What committing a bind leaves behind. *)
Lemma bind_element_frame (env : Env) (cardType : string)
    (configElement : option LovelaceCardEditor) (s : State) :
  let s' := bind_element env cardType configElement s in
  pending s' = pending s
  /\ reconciliations s' = reconciliations s
  /\ _loading s' = false
  /\ _configElType s' = Some cardType
  /\ _configElement s' =
     option_map
       (fun ed => {| editor := ed; el_hass := Some (hass s);
                     el_lovelace := lovelace s; el_listeners := 1 |})
       configElement.
Proof.
  unfold bind_element. destruct configElement as [ed|]; cbv zeta.
  - match goal with
    | |- context [forward_config env ?x] =>
        destruct (forward_config_frame env x)
          as (_ & _ & H3 & H4 & H5 & H6 & H7)
    end.
    rewrite H3, H4, H5, H6, H7. repeat split.
  - match goal with
    | |- context [catch_clause ?e ?x] =>
        destruct (catch_clause_frame e x)
          as (_ & _ & H3 & H4 & H5 & H6 & _ & H8)
    end.
    rewrite H3, H4, H5, H6, H8. repeat split.
Qed.

(** A resumed run leaves the queue and the reconciliation count alone. *)
Lemma resume_frame (env : Env) (k : Continuation) (s : State) :
  pending (fst (resume env k s)) = pending s
  /\ reconciliations (fst (resume env k s)) = reconciliations s.
Proof.
  assert (C : forall e x, pending x = pending s ->
              reconciliations x = reconciliations s ->
              pending (catch_clause e x) = pending s
              /\ reconciliations (catch_clause e x) = reconciliations s).
  { intros e x Hp Hr.
    destruct (catch_clause_frame e x) as (_ & _ & _ & _ & H5 & H6 & _).
    rewrite H5, H6. split; assumption. }
  destruct k as [cardType [[cls|]|err] | cardType [el|err]]; cbn [resume fst];
    try (apply C; reflexivity).
  - destruct (getConfigElement cls); cbn [fst];
      [split; reflexivity | apply C; reflexivity].
  - destruct (bind_element_frame env cardType el s) as (H1 & H2 & _).
    split; assumption.
Qed.

(** What a resumed run leaves of itself: nothing, or the wait for the
    editor of the same card type together with the spinner. *)
Lemma resume_outcome (env : Env) (k : Continuation) (s : State) :
  match snd (resume env k s) with
  | Some k' =>
      awaits_element k = false
      /\ awaits_element k' = true
      /\ captured_type k' = captured_type k
      /\ _loading (fst (resume env k s)) = true
      /\ _configElement (fst (resume env k s)) = _configElement s
      /\ _configElType (fst (resume env k s)) = _configElType s
  | None => _loading (fst (resume env k s)) = false
  end.
Proof.
  assert (C : forall e x, _loading (catch_clause e x) = false).
  { intros e x. apply (catch_clause_frame e x). }
  destruct k as [cardType [[cls|]|err] | cardType [el|err]];
    cbn [resume fst snd]; try apply C.
  - destruct (getConfigElement cls); cbn [fst snd]; [|apply C].
    repeat split.
  - apply (bind_element_frame env cardType el s).
Qed.

(** What the synchronous part of [_updateConfigElement] leaves of itself:
    nothing, or the wait for the class of the config's non-empty type. *)
Lemma _updateConfigElement_outcome (env : Env) (s : State) :
  (_loading (fst (_updateConfigElement env s)) = true -> _loading s = true)
  /\
  match snd (_updateConfigElement env s) with
  | Some k =>
      exists t,
        k = AwaitCardElementClass t (getCardElementClass env t)
        /\ truthy t = true
        /\ option_map type (_config s) = Some (Some t)
        /\ strict_neq (_configElType s) (Some t) = true
  | None => True
  end.
Proof.
  unfold _updateConfigElement, value. cbn.
  destruct (_config s) as [v|]; cbn [fst snd];
    [|split; [intros H; exact H | exact I]].
  set (s1 := set_warning None
               (set_error None
                  (set_reconciliations (S (reconciliations s)) s))).
  assert (C : forall e, _loading (catch_clause e s1) = true ->
                        _loading s = true).
  { intros e H. destruct (catch_clause_frame e s1) as (_&_&_&_&_&_&_&H8).
    rewrite H8 in H. discriminate H. }
  destruct (strict_neq (_configElType s) (type v)) eqn:N.
  - destruct (type v) as [t|] eqn:T; [destruct (truthy t) eqn:Tr|];
      cbn [fst snd]; try (split; [apply C | exact I]).
    split; [intros H; exact H|]. exists t. cbn. rewrite T. repeat split; assumption.
  - cbn [fst snd]. split; [|exact I]. intros H.
    destruct (forward_config_frame env s1) as (_&_&_&_&_&_&H7).
    rewrite H7 in H. discriminate H.
Qed.

(** How [_setConfig] changes the queue, the spinner and the mounted
    editor. *)
Lemma _setConfig_queue (env : Env) (s : State) :
  (_loading (_setConfig env s) = true -> _loading s = true)
  /\ exists l,
       pending (_setConfig env s) = (pending s ++ l)%list
       /\ Forall (fun k => awaits_element k = false
                           /\ truthy (captured_type k) = true) l.
Proof.
  unfold _setConfig.
  destruct (negb (truthy_error (_error s)));
    [|split; [intros H; exact H | exists []; split;
        [cbn; now rewrite app_nil_r | constructor]]].
  destruct (_updateConfigElement_outcome env s) as [L O].
  destruct (_updateConfigElement_frame env s) as (_ & _ & _ & _ & P & _).
  destruct (_updateConfigElement env s) as [s' [k|]]; cbn [fst snd] in *.
  - split; [exact L|]. exists [k]. cbn. rewrite P. split; [reflexivity|].
    destruct O as (t & -> & Tr & _). constructor; [|constructor].
    split; [reflexivity | exact Tr].
  - split; [exact L|]. exists []. cbn. rewrite P, app_nil_r.
    split; [reflexivity | constructor].
Qed.

Lemma nth_error_remove_nth {A} (P : A -> Prop) (l : list A) (n : nat) :
  Forall P l -> Forall P (remove_nth n l).
Proof.
  revert n. induction l as [|x l IH]; intros n F; [destruct n; exact F|].
  inversion F as [|? ? Hx Hl]; subst. destruct n as [|n]; cbn.
  - exact Hl.
  - constructor; [exact Hx | apply IH; exact Hl].
Qed.

Lemma Forall_nth_error {A} (P : A -> Prop) (l : list A) (n : nat) (x : A) :
  Forall P l -> nth_error l n = Some x -> P x.
Proof.
  intros F E. rewrite Forall_forall in F. apply F.
  eapply nth_error_In. exact E.
Qed.

(** The state in which the [n]-th suspended run goes on. *)
Lemma settle_unfold (env : Env) (n : nat) (k : Continuation) (s : State) :
  nth_error (pending s) n = Some k ->
  settle env n s =
  suspend (snd (resume env k (set_pending (remove_nth n (pending s)) s)))
          (fst (resume env k (set_pending (remove_nth n (pending s)) s))).
Proof.
  intros E. unfold settle. rewrite E.
  destruct (resume env k _) as [s1 k']. reflexivity.
Qed.

Lemma settle_idle (env : Env) (n : nat) (s : State) :
  nth_error (pending s) n = None -> settle env n s = s.
Proof. intros E. unfold settle. rewrite E. reflexivity. Qed.

(** *** The spinner *)

Lemma settle_loading (env : Env) (n : nat) (s : State) :
  loading_is_awaited s -> loading_is_awaited (settle env n s).
Proof.
  intros I. destruct (nth_error (pending s) n) as [k|] eqn:E;
    [|rewrite settle_idle by exact E; exact I].
  rewrite (settle_unfold env n k s E).
  set (s0 := set_pending (remove_nth n (pending s)) s).
  pose proof (resume_outcome env k s0) as O.
  destruct (resume_frame env k s0) as [P _].
  destruct (resume env k s0) as [s1 [k'|]]; cbn [fst snd] in *;
    unfold loading_is_awaited.
  - intros _. cbn. rewrite existsb_app. cbn.
    destruct O as (_ & -> & _). rewrite orb_true_r. reflexivity.
  - cbn. rewrite O. discriminate.
Qed.

Lemma _setConfig_loading (env : Env) (s : State) :
  loading_is_awaited s -> loading_is_awaited (_setConfig env s).
Proof.
  intros I H. destruct (_setConfig_queue env s) as [L [l [-> _]]].
  rewrite existsb_app. rewrite (I (L H)). reflexivity.
Qed.

Lemma step_loading (env : Env) (a : Action) (s : State) :
  loading_is_awaited s -> loading_is_awaited (step env a s).
Proof.
  intros I.
  assert (Y : forall text, loading_is_awaited (yaml_set env text s)).
  { intros text. unfold yaml_set. apply _setConfig_loading.
    destruct (safeLoad env _); exact I. }
  assert (V : forall c, loading_is_awaited (value_set env c s)).
  { intros c.
    destruct (value_set_cases env c s) as [-> | [[_ ->] | (c' & _ & ->)]].
    - exact I.
    - exact I.
    - apply _setConfig_loading. exact I. }
  destruct a; unfold step.
  - apply Y.
  - apply V.
  - exact I.
  - exact I.
  - apply V.
  - unfold _handleYAMLChanged. destruct (negb _); [apply Y | exact I].
  - exact I.
  - exact I.
  - unfold loading_is_awaited.
    destruct (updated_frame hassChanged lovelaceChanged s)
      as (_ & -> & _ & _ & _ & _ & -> & _).
    exact I.
  - apply settle_loading. exact I.
Qed.

Lemma run_loading (env : Env) (acts : list Action) (s : State) :
  loading_is_awaited s -> loading_is_awaited (run env acts s).
Proof.
  revert s. induction acts as [|a acts IH]; intros s I; [exact I|].
  cbn. apply IH. apply step_loading. exact I.
Qed.

(** X3: the loading spinner is rendered only while a run of
    [_updateConfigElement] is suspended on [getConfigElement]: in every
    state an element can reach, a rendered spinner means that such a
    promise is still to settle, and when it settles the [finally] clause
    takes the spinner down. *)
Theorem spinner_only_while_editor_is_awaited (env : Env)
    (computeRTL : HomeAssistant -> bool) (acts : list Action)
    (h : HomeAssistant) :
  let s := run env acts (initial h) in
  main (render computeRTL s) = Spinner ->
  existsb awaits_element (pending s) = true
  /\ forall n k, nth_error (pending s) n = Some k ->
       awaits_element k = true ->
       _loading (settle env n s) = false.
Proof.
  cbv zeta. intros R. split.
  - apply (run_loading env acts (initial h)); [discriminate|].
    unfold render in R. cbn in R.
    destruct (GUImode _); [|discriminate R].
    destruct (_loading _); [reflexivity | discriminate R].
  - intros n k E A. rewrite (settle_unfold env n k _ E).
    set (s0 := set_pending _ _).
    pose proof (resume_outcome env k s0) as O.
    destruct (resume env k s0) as [s1 [k'|]]; cbn [fst snd] in *.
    + destruct O as (F & _). rewrite F in A. discriminate A.
    + exact O.
Qed.

Lemma spinner_only_while_editor_is_awaited_witness :
  let s := run Scenario.env
             [SetValue (Some Scenario.card_a); Settle 0] (initial 0) in
  existsb awaits_element (pending s) = true
  /\ forall n k, nth_error (pending s) n = Some k ->
       awaits_element k = true ->
       _loading (settle Scenario.env n s) = false.
Proof.
  exact (spinner_only_while_editor_is_awaited Scenario.env (fun _ => false)
           [SetValue (Some Scenario.card_a); Settle 0] 0 eq_refl).
Defined.

(** *** The queue of suspended runs *)

Lemma awaits_due_app (l1 l2 : list Continuation) :
  awaits_due (l1 ++ l2) = awaits_due l1 + awaits_due l2.
Proof. unfold awaits_due. rewrite map_app, list_sum_app. reflexivity. Qed.

Lemma awaits_due_remove (l : list Continuation) (n : nat)
    (k : Continuation) :
  nth_error l n = Some k ->
  awaits_due l = awaits_left k + awaits_due (remove_nth n l).
Proof.
  revert n. induction l as [|x l IH]; intros n E;
    [destruct n; discriminate E|].
  destruct n as [|n]; cbn in E.
  - injection E as ->. reflexivity.
  - change (awaits_due (x :: l)) with (awaits_left x + awaits_due l).
    change (remove_nth (S n) (x :: l)) with (x :: remove_nth n l).
    change (awaits_due (x :: remove_nth n l))
      with (awaits_left x + awaits_due (remove_nth n l)).
    rewrite (IH n E). lia.
Qed.

Lemma awaits_due_zero (l : list Continuation) :
  awaits_due l = 0 -> l = [].
Proof.
  destruct l as [|k l]; [reflexivity|]. unfold awaits_due. cbn.
  destruct k; cbn; lia.
Qed.

(** Each settlement uses up one of the awaits a run has left. *)
Lemma settle_progress (env : Env) (n : nat) (k : Continuation) (s : State) :
  nth_error (pending s) n = Some k ->
  awaits_due (pending (settle env n s)) < awaits_due (pending s).
Proof.
  intros E. rewrite (settle_unfold env n k s E).
  rewrite (awaits_due_remove _ n k E).
  set (s0 := set_pending (remove_nth n (pending s)) s).
  pose proof (resume_outcome env k s0) as O.
  destruct (resume_frame env k s0) as [P _].
  destruct (resume env k s0) as [s1 [k'|]]; cbn [fst snd] in *.
  - change (pending (suspend (Some k') s1)) with (pending s1 ++ [k'])%list.
    rewrite P, awaits_due_app.
    change (pending s0) with (remove_nth n (pending s)).
    destruct O as (A & A' & _).
    destruct k; [|discriminate A]. destruct k'; [discriminate A'|].
    unfold awaits_due at 2. cbn. lia.
  - change (pending (suspend None s1)) with (pending s1). rewrite P.
    change (pending s0) with (remove_nth n (pending s)).
    destruct k; cbn [awaits_left]; lia.
Qed.

Lemma drain_within (env : Env) (fuel : nat) (s : State) :
  awaits_due (pending s) <= fuel ->
  pending (run env (repeat (Settle 0) fuel) s) = [].
Proof.
  revert s. induction fuel as [|fuel IH]; intros s B.
  - cbn. apply awaits_due_zero. lia.
  - cbn [repeat run fold_left]. apply IH. unfold step.
    destruct (nth_error (pending s) 0) as [k|] eqn:E.
    + pose proof (settle_progress env 0 k s E). lia.
    + rewrite settle_idle by exact E. destruct (pending s); [|discriminate E].
      cbn. lia.
Qed.

Lemma run_only_settles_keep_store (env : Env) (fuel : nat) (s : State) :
  value (run env (repeat (Settle 0) fuel) s) = value s
  /\ yaml (run env (repeat (Settle 0) fuel) s) = yaml s.
Proof.
  revert s. induction fuel as [|fuel IH]; intros s; [split; reflexivity|].
  change (run env (repeat (Settle 0) (S fuel)) s)
    with (run env (repeat (Settle 0) fuel) (step env (Settle 0) s)).
  destruct (IH (step env (Settle 0) s)) as [-> ->].
  unfold step, value, yaml.
  destruct (settle_passive env 0 s) as (-> & -> & _). split; reflexivity.
Qed.

(** X4: every suspended reconciliation comes to an end.  A run has at most
    two awaits (the card class, then its editor); settling the oldest
    pending promise [awaits_due] times empties the queue, whatever the
    promises settle with, and the config and the text are the same
    afterwards. *)
Theorem suspended_runs_end_within_two_awaits (env : Env) (s : State) :
  awaits_due (pending s) <= 2 * List.length (pending s)
  /\ (let s' := run env (repeat (Settle 0) (awaits_due (pending s))) s in
      pending s' = [] /\ value s' = value s /\ yaml s' = yaml s).
Proof.
  split.
  - induction (pending s) as [|k l IH]; [cbn; lia|].
    change (awaits_due (k :: l)) with (awaits_left k + awaits_due l).
    cbn [List.length]. destruct k; cbn [awaits_left]; lia.
  - cbv zeta. split; [apply drain_within; lia|].
    apply run_only_settles_keep_store.
Qed.

(** *** The mounted editor and its recorded type *)

(** A resumed run either leaves the mounted editor and the recorded type
    alone or commits its bind for the type it captured. *)
Lemma resume_mount (env : Env) (k : Continuation) (s : State) :
  let s' := fst (resume env k s) in
  (_configElement s' = _configElement s
   /\ _configElType s' = _configElType s)
  \/
  (snd (resume env k s) = None
   /\ _configElType s' = Some (captured_type k)
   /\ exists el,
        _configElement s' =
        option_map
          (fun ed => {| editor := ed; el_hass := Some (hass s);
                        el_lovelace := lovelace s; el_listeners := 1 |})
          el).
Proof.
  assert (C : forall e x, _configElement x = _configElement s ->
              _configElType x = _configElType s ->
              _configElement (catch_clause e x) = _configElement s
              /\ _configElType (catch_clause e x) = _configElType s).
  { intros e x H1 H2.
    destruct (catch_clause_frame e x) as (_ & _ & H3 & H4 & _).
    rewrite H3, H4. split; assumption. }
  destruct k as [cardType [[cls|]|err] | cardType [el|err]];
    cbn [resume fst snd captured_type];
    try (left; apply C; reflexivity).
  - destruct (getConfigElement cls); cbn [fst];
      left; [split; reflexivity | apply C; reflexivity].
  - right. destruct (bind_element_frame env cardType el s)
      as (_ & _ & _ & H4 & H5).
    split; [reflexivity|]. split; [exact H4|]. exists el. exact H5.
Qed.

Lemma settle_types (env : Env) (n : nat) (s : State) :
  types_are_truthy s -> types_are_truthy (settle env n s).
Proof.
  intros [T F]. destruct (nth_error (pending s) n) as [k|] eqn:E;
    [|rewrite settle_idle by exact E; split; assumption].
  rewrite (settle_unfold env n k s E).
  set (s0 := set_pending (remove_nth n (pending s)) s).
  pose proof (Forall_nth_error _ _ _ _ F E) as Tk. cbn beta in Tk.
  pose proof (nth_error_remove_nth _ _ n F) as F0.
  pose proof (resume_outcome env k s0) as O.
  pose proof (resume_mount env k s0) as M. cbv zeta in M.
  destruct (resume_frame env k s0) as [P _].
  destruct (resume env k s0) as [s1 k']; cbn [fst snd] in *.
  assert (T1 : match _configElType s1 with
               | Some t => truthy t = true
               | None => _configElement s1 = None
               end).
  { destruct M as [[M1 M2] | (_ & M2 & _)].
    - rewrite M1, M2. exact T.
    - rewrite M2. exact Tk. }
  destruct k' as [k'|]; unfold types_are_truthy; cbn.
  - split; [exact T1|]. rewrite P. apply Forall_app. split; [exact F0|].
    constructor; [|constructor]. destruct O as (_ & _ & -> & _). exact Tk.
  - split; [exact T1|]. rewrite P. exact F0.
Qed.

Lemma _setConfig_types (env : Env) (s : State) :
  types_are_truthy s -> types_are_truthy (_setConfig env s).
Proof.
  intros [T F]. unfold types_are_truthy.
  destruct (_setConfig_frame env s) as (_ & _ & -> & ->).
  split; [exact T|].
  destruct (_setConfig_queue env s) as [_ [l [-> Fl]]].
  apply Forall_app. split; [exact F|].
  eapply Forall_impl; [|exact Fl]. intros k [_ Hk]. exact Hk.
Qed.

Lemma step_types (env : Env) (a : Action) (s : State) :
  types_are_truthy s -> types_are_truthy (step env a s).
Proof.
  intros I.
  assert (Y : forall text, types_are_truthy (yaml_set env text s)).
  { intros text. unfold yaml_set. apply _setConfig_types.
    destruct (safeLoad env _); exact I. }
  assert (V : forall c, types_are_truthy (value_set env c s)).
  { intros c.
    destruct (value_set_cases env c s) as [-> | [[_ ->] | (c' & _ & ->)]].
    - exact I.
    - exact I.
    - apply _setConfig_types. exact I. }
  destruct a; unfold step.
  - apply Y.
  - apply V.
  - exact I.
  - exact I.
  - apply V.
  - unfold _handleYAMLChanged. destruct (negb _); [apply Y | exact I].
  - exact I.
  - exact I.
  - destruct I as [T F]. unfold types_are_truthy.
    destruct (updated_frame hassChanged lovelaceChanged s)
      as (_ & -> & _ & _ & _ & _ & _ & -> & _ & _ & N).
    split; [|exact F].
    destruct (_configElType s); [exact T | apply N; exact T].
  - apply settle_types. exact I.
Qed.

(** X5: a card class is only ever looked up, and a card type only ever
    recorded, for a non-empty type string: in every state an element can
    reach, each suspended run captured a non-empty type, the recorded type
    is non-empty, and no editor is mounted without a recorded type. *)
Theorem lookups_only_for_nonempty_types (env : Env) (acts : list Action)
    (h : HomeAssistant) :
  types_are_truthy (run env acts (initial h)).
Proof.
  assert (G : forall s, types_are_truthy s ->
                types_are_truthy (run env acts s)).
  { induction acts as [|a l IH]; intros s I; [exact I|].
    cbn. apply IH. apply step_types. exact I. }
  apply G. split; [reflexivity | constructor].
Qed.

(** *** The references handed to the mounted editor *)

Lemma same_editor_same_context (s s' : State) :
  _configElement s' = _configElement s ->
  hass s' = hass s ->
  lovelace s' = lovelace s ->
  (editor_has_hass s -> editor_has_hass s')
  /\ (editor_has_lovelace s -> editor_has_lovelace s').
Proof.
  intros E H L. unfold editor_has_hass, editor_has_lovelace.
  rewrite E, H, L. split; intros X; exact X.
Qed.

(** A settling promise keeps the editor or mounts one that is handed the
    references of that moment (lines 263-264). *)
Lemma settle_context (env : Env) (n : nat) (s : State) :
  (editor_has_hass s -> editor_has_hass (settle env n s))
  /\ (editor_has_lovelace s -> editor_has_lovelace (settle env n s)).
Proof.
  destruct (nth_error (pending s) n) as [k|] eqn:E;
    [|rewrite settle_idle by exact E; split; intros X; exact X].
  rewrite (settle_unfold env n k s E).
  set (s0 := set_pending (remove_nth n (pending s)) s).
  pose proof (resume_mount env k s0) as M. cbv zeta in M.
  destruct (resume_passive env k s0) as (_ & _ & Hh & Hl & _).
  destruct (resume env k s0) as [s1 k']; cbn [fst snd] in *.
  assert (C : (editor_has_hass s -> editor_has_hass s1)
              /\ (editor_has_lovelace s -> editor_has_lovelace s1)).
  { destruct M as [[M1 _] | (_ & _ & [el M1])].
    - apply same_editor_same_context; assumption.
    - unfold editor_has_hass, editor_has_lovelace.
      rewrite M1, Hh, Hl. destruct el; cbn; split; intros _; trivial. }
  destruct k'; exact C.
Qed.

Lemma _setConfig_context (env : Env) (s : State) :
  (editor_has_hass s -> editor_has_hass (_setConfig env s))
  /\ (editor_has_lovelace s -> editor_has_lovelace (_setConfig env s)).
Proof.
  destruct (_setConfig_frame env s) as (_ & _ & E & _).
  destruct (_setConfig_passive env s) as (_ & _ & H & L & _).
  apply same_editor_same_context; assumption.
Qed.

Lemma edit_context (env : Env) (s : State) :
  (forall text,
      (editor_has_hass s -> editor_has_hass (yaml_set env text s))
      /\ (editor_has_lovelace s ->
          editor_has_lovelace (yaml_set env text s)))
  /\
  (forall c,
      (editor_has_hass s -> editor_has_hass (value_set env c s))
      /\ (editor_has_lovelace s ->
          editor_has_lovelace (value_set env c s))).
Proof.
  split.
  - intros text. unfold yaml_set.
    match goal with
    | |- context [_setConfig env ?x] =>
        destruct (_setConfig_context env x) as [A B]
    end.
    split; intros X; [apply A | apply B];
      destruct (safeLoad env _); exact X.
  - intros c.
    destruct (value_set_cases env c s) as [-> | [[_ ->] | (c' & _ & ->)]].
    + split; intros X; exact X.
    + split; intros X; exact X.
    + match goal with
      | |- context [_setConfig env ?x] =>
          destruct (_setConfig_context env x) as [A B]
      end.
      split; intros X; [apply A | apply B]; exact X.
Qed.

Lemma updated_context (hc lc : bool) (s : State) :
  (editor_has_hass s -> editor_has_hass (updated hc lc s))
  /\ (editor_has_lovelace s -> editor_has_lovelace (updated hc lc s))
  /\ (hc = true -> editor_has_hass (updated hc lc s))
  /\ (lc = true -> editor_has_lovelace (updated hc lc s)).
Proof.
  unfold updated, forward_hass, forward_lovelace, editor_has_hass,
    editor_has_lovelace.
  destruct hc, lc; destruct (_configElement s) as [el|] eqn:E; cbn;
    rewrite ?E; cbn; repeat split; intros X; trivial; discriminate X.
Qed.

(** X6: the references of the mounted form editor go stale only by an
    assignment to [hass] or [lovelace], and the next [updated] that has the
    property among the changed ones repairs them.  Every other action
    keeps an editor that holds the element's [hass] (its [lovelace]) up to
    date; this includes a bind, which hands the new editor the references
    the element holds at that moment (lines 263-264). *)
Theorem editor_context_stale_only_by_assignment (env : Env) (a : Action)
    (s : State) :
  (assigns_hass a = false ->
   editor_has_hass s -> editor_has_hass (step env a s))
  /\ (assigns_lovelace a = false ->
      editor_has_lovelace s -> editor_has_lovelace (step env a s))
  /\ (forall lc, editor_has_hass (updated true lc s))
  /\ (forall hc, editor_has_lovelace (updated hc true s)).
Proof.
  destruct (edit_context env s) as [Y V].
  split; [|split; [|split]].
  - intros N X. destruct a; unfold step; cbn in N; try discriminate N.
    + apply (Y text). exact X.
    + apply (V config). exact X.
    + exact X.
    + exact X.
    + apply (V (Some config)). exact X.
    + unfold _handleYAMLChanged. destruct (negb _); [|exact X].
      apply (Y newYaml). exact X.
    + exact X.
    + destruct (updated_context hassChanged lovelaceChanged s) as (A & _).
      apply A. exact X.
    + apply (settle_context env n s). exact X.
  - intros N X. destruct a; unfold step; cbn in N; try discriminate N.
    + apply (Y text). exact X.
    + apply (V config). exact X.
    + exact X.
    + exact X.
    + apply (V (Some config)). exact X.
    + unfold _handleYAMLChanged. destruct (negb _); [|exact X].
      apply (Y newYaml). exact X.
    + exact X.
    + destruct (updated_context hassChanged lovelaceChanged s)
        as (_ & B & _).
      apply B. exact X.
    + apply (settle_context env n s). exact X.
  - intros lc. apply (updated_context true lc s). reflexivity.
  - intros hc. apply (updated_context hc true s). reflexivity.
Qed.

Lemma editor_context_stale_only_by_assignment_witness :
  let s := run Scenario.env
             [SetHass 7; SetValue (Some Scenario.card_a); Settle 0]
             Scenario.start in
  editor_has_hass (step Scenario.env (Settle 0) s)
  /\ option_map el_hass (_configElement (step Scenario.env (Settle 0) s))
     = Some (Some 7).
Proof.
  split; [|reflexivity].
  exact (proj1 (editor_context_stale_only_by_assignment Scenario.env
                  (Settle 0)
                  (run Scenario.env
                     [SetHass 7; SetValue (Some Scenario.card_a); Settle 0]
                     Scenario.start))
           eq_refl I).
Defined.

(** *** Notifications and reconciliations *)

Lemma error_count_app (l1 l2 : list Event) :
  error_count (l1 ++ l2)%list = error_count l1 + error_count l2.
Proof.
  unfold error_count. rewrite filter_app, length_app. reflexivity.
Qed.

Lemma no_changes_no_errors (l : list Event) :
  change_count l = 0 -> error_count l = 0.
Proof.
  induction l as [|e l IH]; intros C; [reflexivity|].
  destruct e as [d|d]; [discriminate C|]. apply IH. exact C.
Qed.

Lemma truthy_error_defined (e : option ErrorValue) :
  truthy_error e = true -> defined e = true.
Proof. destruct e; [reflexivity | discriminate]. Qed.

Lemma error_count_reports (s : State) :
  error_count [reports s] = if defined (_error s) then 1 else 0.
Proof.
  unfold error_count, reports. cbn. destruct (_error s); reflexivity.
Qed.

Lemma quiet_accounted (s s' : State) :
  quiet s s' -> reconciliations s' = reconciliations s ->
  accounted s -> accounted s'.
Proof.
  intros [pre [E C]] R A. unfold accounted in *.
  rewrite E, R, change_count_app, error_count_app, C,
    (no_changes_no_errors pre C). lia.
Qed.

Lemma _setConfig_accounted (env : Env) (s : State) :
  accounted s -> accounted (_setConfig env s).
Proof.
  intros A. unfold accounted in *.
  destruct (truthy_error (_error s)) eqn:T.
  - rewrite _setConfig_blocked by exact T.
    change (events (fireEvent (reports s) s))
      with (events s ++ [reports s])%list.
    change (reconciliations (fireEvent (reports s) s))
      with (reconciliations s).
    assert (E1 : error_count [reports s] = 1).
    { rewrite error_count_reports, (truthy_error_defined _ T).
      reflexivity. }
    rewrite change_count_app, error_count_app, E1.
    change (change_count [reports s]) with 1. lia.
  - destruct (_setConfig_reconciles env s T) as [He Hr].
    destruct (_setConfig_emits env s) as [pre [E C]].
    assert (E0 : error_count [reports (_setConfig env s)] = 0).
    { rewrite error_count_reports, He. reflexivity. }
    rewrite E, Hr, !change_count_app, !error_count_app, C,
      (no_changes_no_errors pre C), E0.
    change (change_count [reports (_setConfig env s)]) with 1. lia.
Qed.

Lemma settle_reconciliations (env : Env) (n : nat) (s : State) :
  reconciliations (settle env n s) = reconciliations s.
Proof.
  destruct (nth_error (pending s) n) as [k|] eqn:E;
    [|rewrite settle_idle by exact E; reflexivity].
  rewrite (settle_unfold env n k s E).
  set (s0 := set_pending (remove_nth n (pending s)) s).
  destruct (resume_frame env k s0) as [_ R].
  destruct (resume env k s0) as [s1 [k'|]]; cbn [fst snd] in *;
    cbn; rewrite R; reflexivity.
Qed.

Lemma step_accounted (env : Env) (a : Action) (s : State) :
  accounted s -> accounted (step env a s).
Proof.
  intros A.
  assert (Y : forall text, accounted (yaml_set env text s)).
  { intros text. unfold yaml_set. apply _setConfig_accounted.
    destruct (safeLoad env _); exact A. }
  assert (V : forall c, accounted (value_set env c s)).
  { intros c.
    destruct (value_set_cases env c s) as [-> | [[_ ->] | (c' & _ & ->)]].
    - exact A.
    - exact A.
    - apply _setConfig_accounted. exact A. }
  destruct a; unfold step.
  - apply Y.
  - apply V.
  - eapply quiet_accounted;
      [apply GUImode_set_quiet | reflexivity | exact A].
  - eapply quiet_accounted;
      [apply GUImode_set_quiet | reflexivity | exact A].
  - apply V.
  - unfold _handleYAMLChanged. destruct (negb _); [apply Y | exact A].
  - exact A.
  - exact A.
  - unfold accounted.
    destruct (updated_frame hassChanged lovelaceChanged s)
      as (-> & _ & -> & _).
    exact A.
  - eapply quiet_accounted;
      [apply settle_quiet | apply settle_reconciliations | exact A].
Qed.

(** X7: over the whole life of an element, the number of [config-changed]
    events is the number of entries into [_updateConfigElement] plus the
    number of [config-changed] events that carry an error: a notification
    without error stands for exactly one reconciliation that was started,
    one with an error for none, and nothing else starts a reconciliation. *)
Theorem notifications_account_for_reconciliations (env : Env)
    (acts : list Action) (h : HomeAssistant) :
  let s := run env acts (initial h) in
  change_count (events s) = reconciliations s + error_count (events s).
Proof.
  cbv zeta.
  assert (G : forall s, accounted s -> accounted (run env acts s)).
  { induction acts as [|a l IH]; intros s A; [exact A|].
    cbn. apply IH. apply step_accounted. exact A. }
  apply G. reflexivity.
Qed.

(** *** Edits, case by case *)

(** X8: an edit that keeps the card type is handled at once.  When the
    config assigned has the recorded type and the mounted editor accepts
    it, nothing is looked up or suspended, a warning or error of an earlier
    reconciliation is gone, the mode stays, and the single notification
    says that GUI mode is available. *)
Theorem same_type_edit_accepted (env : Env) (s : State)
    (c : LovelaceCardConfig) (el : ConfigElement) :
  is_current env (Some c) s = false ->
  strict_neq (_configElType s) (type c) = false ->
  _configElement s = Some el ->
  setConfig (editor el) (Some c) = None ->
  let s' := value_set env (Some c) s in
  value s' = Some c
  /\ yaml s' = safeDump env c
  /\ errorState s' = NoClassification
  /\ GUImode s' = GUImode s
  /\ _configElement s' = Some el
  /\ pending s' = pending s
  /\ events s' =
     (events s ++
      [EvConfigChanged
         {| ConfigChanged.config := Some c;
            ConfigChanged.error := None;
            ConfigChanged.guiModeAvailable := true |}])%list.
Proof.
  intros G T M A. cbv zeta. rewrite value_set_not_current by exact G.
  unfold _setConfig, _updateConfigElement, forward_config, value,
    errorState, yaml, GUImode.
  cbn. rewrite T. cbn. rewrite M. cbn. rewrite A. cbn. rewrite M.
  repeat split.
Qed.

Lemma same_type_edit_accepted_witness :
  let s := mounted Scenario.env Scenario.markdown_card Scenario.start in
  let c := {| type := Some "markdown"; fields := [("content", "bye")] |} in
  let s' := value_set Scenario.env (Some c) s in
  value s' = Some c /\ errorState s' = NoClassification
  /\ pending s' = pending s.
Proof.
  pose proof
    (same_type_edit_accepted Scenario.env
       (mounted Scenario.env Scenario.markdown_card Scenario.start)
       {| type := Some "markdown"; fields := [("content", "bye")] |}
       {| editor := Scenario.markdown_editor; el_hass := Some 0;
          el_lovelace := None; el_listeners := 1 |}
       eq_refl eq_refl eq_refl eq_refl) as H.
  cbv zeta in *. destruct H as (H1 & _ & H3 & _ & _ & H6 & _).
  split; [exact H1|]. split; [exact H3 | exact H6].
Defined.

(** X9: when the mounted editor rejects a config of the recorded type, the
    config is kept as assigned (it is not reverted), the editor's message
    becomes the warning, the element switches to the YAML view and says so
    before it dispatches the notification, which carries no error and
    [guiModeAvailable = false]. *)
Theorem same_type_edit_rejected (env : Env) (s : State)
    (c : LovelaceCardConfig) (el : ConfigElement) (err : JsError) :
  is_current env (Some c) s = false ->
  strict_neq (_configElType s) (type c) = false ->
  _configElement s = Some el ->
  setConfig (editor el) (Some c) = Some err ->
  let s' := value_set env (Some c) s in
  value s' = Some c
  /\ yaml s' = safeDump env c
  /\ errorState s' = Warning (" " ++ message err)
  /\ GUImode s' = false
  /\ _configElement s' = Some el
  /\ pending s' = pending s
  /\ events s' =
     (events s ++
      [forced_raw;
       EvConfigChanged
         {| ConfigChanged.config := Some c;
            ConfigChanged.error := None;
            ConfigChanged.guiModeAvailable := false |}])%list.
Proof.
  intros G T M A. cbv zeta. rewrite value_set_not_current by exact G.
  unfold _setConfig, _updateConfigElement, forward_config, value,
    errorState, yaml, GUImode.
  cbn -[catch_clause]. rewrite T. cbn -[catch_clause]. rewrite M.
  cbn -[catch_clause]. rewrite A.
  change {| message := "WARNING: " ++ message err |}
    with {| message := "WARNING:" ++ " " ++ message err |}.
  match goal with
  | |- context [catch_clause ?e ?x] =>
      destruct (catch_clause_frame e x)
        as (H1 & H2 & H3 & H4 & H5 & H6 & H7 & H8);
      destruct (catch_clause_warning (" " ++ message err) x) as [W E];
      pose proof (catch_clause_events e x) as Ev
  end.
  cbn -[catch_clause] in *.
  unfold hasWarning, hasError. cbn -[catch_clause].
  rewrite H1, H2, H3, H5, H7, W, Ev, M. cbn.
  rewrite <- app_assoc. repeat split.
Qed.

Lemma same_type_edit_rejected_witness :
  let s := mounted Scenario.env Scenario.markdown_card Scenario.start in
  let s' := value_set Scenario.env
              (Some Scenario.markdown_without_content) s in
  value s' = Some Scenario.markdown_without_content
  /\ errorState s' = Warning " Content required"
  /\ GUImode s' = false.
Proof.
  pose proof
    (same_type_edit_rejected Scenario.env
       (mounted Scenario.env Scenario.markdown_card Scenario.start)
       Scenario.markdown_without_content
       {| editor := Scenario.markdown_editor; el_hass := Some 0;
          el_lovelace := None; el_listeners := 1 |}
       {| message := "Content required" |}
       eq_refl eq_refl eq_refl eq_refl) as H.
  cbv zeta in *. destruct H as (H1 & _ & H3 & H4 & _).
  split; [exact H1|]. split; [exact H3 | exact H4].
Defined.

(** An assignment of a config with a new, non-empty card type starts the
    lookup of the card class and dispatches before the lookup settles. *)
Lemma value_set_starts_lookup (env : Env) (s : State)
    (c : LovelaceCardConfig) (t : string) :
  is_current env (Some c) s = false ->
  type c = Some t ->
  truthy t = true ->
  strict_neq (_configElType s) (Some t) = true ->
  value_set env (Some c) s =
  let s1 := set_reconciliations (S (reconciliations s))
              (set_warning None
                 (set_error None
                    (set_yaml (Some (safeDump env c))
                       (set_config (Some c) s)))) in
  let s2 := set_pending
              (pending s ++
               [AwaitCardElementClass t (getCardElementClass env t)])
              s1 in
  fireEvent (reports s2) s2.
Proof.
  intros G T Tr N. rewrite value_set_not_current by exact G.
  unfold _setConfig, _updateConfigElement, value. cbn.
  rewrite T, N, Tr. reflexivity.
Qed.

(** The oldest suspended run, when its promise settles. *)
Lemma settle_class_found (env : Env) (s : State) (t : string)
    (cls : CardElementClass) (p : Outcome (option LovelaceCardEditor))
    (rest : list Continuation) :
  pending s = AwaitCardElementClass t (Returns (Some cls)) :: rest ->
  getConfigElement cls = Some p ->
  settle env 0 s =
  set_pending (rest ++ [AwaitConfigElement t p]) (set_loading true s).
Proof.
  intros P F. unfold settle. rewrite P. cbn [nth_error remove_nth resume].
  rewrite F. reflexivity.
Qed.

Lemma settle_class_rejected (env : Env) (s : State) (t : string)
    (err : JsError) (rest : list Continuation) :
  pending s = AwaitCardElementClass t (Throws err) :: rest ->
  settle env 0 s = catch_clause err (set_pending rest s).
Proof. intros P. unfold settle. rewrite P. reflexivity. Qed.

Lemma settle_editor_created (env : Env) (s : State) (t : string)
    (ed : option LovelaceCardEditor) (rest : list Continuation) :
  pending s = AwaitConfigElement t (Returns ed) :: rest ->
  settle env 0 s = bind_element env t ed (set_pending rest s).
Proof. intros P. unfold settle. rewrite P. reflexivity. Qed.

Lemma forward_config_accepted (env : Env) (s : State) (el : ConfigElement) :
  _configElement s = Some el ->
  setConfig (editor el) (value s) = None ->
  forward_config env s = finally_clause s.
Proof. intros M A. unfold forward_config. rewrite M, A. reflexivity. Qed.

(** X10: the whole way of a new card to its form editor.  On an element
    with nothing pending, a config with a new card type is assigned; the
    class is found, it has a form editor, and the editor accepts the
    config.  After the two awaits the editor is mounted and recorded for
    the type, there is neither error nor warning, the mode is what it was,
    the spinner is down, and the only event is the notification dispatched
    by the assignment itself. *)
Theorem new_card_type_mounts_its_editor (env : Env) (s : State)
    (c : LovelaceCardConfig) (t : string) (cls : CardElementClass)
    (ed : LovelaceCardEditor) :
  pending s = [] ->
  is_current env (Some c) s = false ->
  type c = Some t ->
  truthy t = true ->
  strict_neq (_configElType s) (Some t) = true ->
  getCardElementClass env t = Returns (Some cls) ->
  getConfigElement cls = Some (Returns (Some ed)) ->
  setConfig ed (Some c) = None ->
  let s' := run env [SetValue (Some c); Settle 0; Settle 0] s in
  value s' = Some c
  /\ _configElement s' =
     Some {| editor := ed; el_hass := Some (hass s);
             el_lovelace := lovelace s; el_listeners := 1 |}
  /\ _configElType s' = Some t
  /\ errorState s' = NoClassification
  /\ GUImode s' = GUImode s
  /\ _loading s' = false
  /\ pending s' = []
  /\ events s' =
     (events s ++
      [EvConfigChanged
         {| ConfigChanged.config := Some c;
            ConfigChanged.error := None;
            ConfigChanged.guiModeAvailable := true |}])%list.
Proof.
  intros P G T Tr N L F A. cbv zeta. unfold run. cbn [fold_left step].
  rewrite (value_set_starts_lookup env s c t G T Tr N), P, L. cbv zeta.
  match goal with
  | |- context [settle env 0 (settle env 0 ?x)] => set (s1 := x)
  end.
  rewrite (settle_class_found env s1 t cls _ [] eq_refl F).
  match goal with
  | |- context [settle env 0 ?x] => set (s2 := x)
  end.
  rewrite (settle_editor_created env s2 t (Some ed) [] eq_refl).
  subst s2 s1. unfold bind_element.
  erewrite forward_config_accepted; [|reflexivity|exact A].
  unfold errorState, GUImode, value. cbn. repeat split.
Qed.

Lemma new_card_type_mounts_its_editor_witness :
  let s' := run Scenario.env
              [SetValue (Some Scenario.markdown_card); Settle 0; Settle 0]
              Scenario.start in
  value s' = Some Scenario.markdown_card
  /\ option_map editor (_configElement s') = Some Scenario.markdown_editor
  /\ errorState s' = NoClassification.
Proof.
  pose proof
    (new_card_type_mounts_its_editor Scenario.env Scenario.start
       Scenario.markdown_card "markdown" Scenario.markdown_class
       Scenario.markdown_editor
       eq_refl eq_refl eq_refl eq_refl eq_refl eq_refl eq_refl eq_refl)
    as H.
  cbv zeta in *. destruct H as (H1 & H2 & _ & H4 & _).
  split; [exact H1|]. split; [rewrite H2; reflexivity | exact H4].
Defined.

(** X11: a lookup that rejects is a fatal error the notification never
    mentions.  The assignment dispatches its [config-changed] first, with
    no error and [guiModeAvailable = true]; when the promise of
    [getCardElementClass] rejects (with a message that does not carry the
    warning marker) [_error] receives the [Error] object, the element
    switches to the YAML view, and the only event that follows is the
    [GUImode-changed]; the editor mounted before stays mounted. *)
Theorem rejected_lookup_is_fatal (env : Env) (s : State)
    (c : LovelaceCardConfig) (t : string) (err : JsError) :
  pending s = [] ->
  is_current env (Some c) s = false ->
  type c = Some t ->
  truthy t = true ->
  strict_neq (_configElType s) (Some t) = true ->
  getCardElementClass env t = Throws err ->
  startsWith "WARNING:" (message err) = false ->
  let s' := run env [SetValue (Some c); Settle 0] s in
  value s' = Some c
  /\ errorState s' = Error (ErrObject err)
  /\ GUImode s' = false
  /\ _configElement s' = _configElement s
  /\ _configElType s' = _configElType s
  /\ pending s' = []
  /\ events s' =
     (events s ++
      [EvConfigChanged
         {| ConfigChanged.config := Some c;
            ConfigChanged.error := None;
            ConfigChanged.guiModeAvailable := true |};
       forced_raw])%list.
Proof.
  intros P G T Tr N L W. cbv zeta. unfold run. cbn [fold_left step].
  rewrite (value_set_starts_lookup env s c t G T Tr N), P, L. cbv zeta.
  match goal with
  | |- context [settle env 0 ?x] => set (s1 := x)
  end.
  rewrite (settle_class_rejected env s1 t err [] eq_refl).
  subst s1. unfold catch_clause. rewrite W.
  unfold errorState, GUImode, value, forced_raw. cbn.
  rewrite <- app_assoc. repeat split.
Qed.

Lemma rejected_lookup_is_fatal_witness :
  let c := {| type := Some "gauge"; fields := [] |} in
  let s' := run Scenario.env [SetValue (Some c); Settle 0]
              Scenario.start in
  errorState s' = Error (ErrObject {| message := "Unknown type: gauge" |})
  /\ GUImode s' = false.
Proof.
  pose proof
    (rejected_lookup_is_fatal Scenario.env Scenario.start
       {| type := Some "gauge"; fields := [] |} "gauge"
       {| message := "Unknown type: gauge" |}
       eq_refl eq_refl eq_refl eq_refl eq_refl eq_refl eq_refl) as H.
  cbv zeta in *. destruct H as (_ & H2 & H3 & _).
  split; [exact H2 | exact H3].
Defined.

(** The store after the two setters. *)
Lemma yaml_set_store (env : Env) (s : State) (text : string) :
  yaml (yaml_set env text s) = text
  /\ value (yaml_set env text s) =
     match safeLoad env text with
     | Returns c => c
     | Throws _ => value s
     end.
Proof.
  unfold yaml_set. change (yaml (set_yaml (Some text) s)) with text.
  match goal with
  | |- context [_setConfig env ?x] =>
      destruct (_setConfig_frame env x) as (H1 & H2 & _)
  end.
  unfold value, yaml. rewrite H1, H2.
  destruct (safeLoad env text); split; reflexivity.
Qed.

Lemma value_set_store (env : Env) (s : State) (c : LovelaceCardConfig) :
  is_current env (Some c) s = false ->
  value (value_set env (Some c) s) = Some c
  /\ yaml (value_set env (Some c) s) = safeDump env c.
Proof.
  intros G. rewrite value_set_not_current by exact G.
  match goal with
  | |- context [_setConfig env ?x] =>
      destruct (_setConfig_frame env x) as (H1 & H2 & _)
  end.
  unfold value, yaml. rewrite H1, H2. split; reflexivity.
Qed.

(** X12: what an assignment to [yaml] leaves in the store, in every case.
    The text is kept verbatim.  If it parses, the config is the parsed
    document (also [undefined] for an empty one) and there is no error on
    return.  If it does not parse, the config is the one held before and
    the error is the parser's message, unless that message is the empty
    string, which line 107 takes for no error: the reconciliation runs and
    the error is gone on return. *)
Theorem yaml_set_outcome (env : Env) (s : State) (text : string) :
  let s' := yaml_set env text s in
  yaml s' = text
  /\ value s' =
     match safeLoad env text with
     | Returns c => c
     | Throws _ => value s
     end
  /\ _error s' =
     match safeLoad env text with
     | Returns _ => None
     | Throws err =>
         if truthy (message err) then Some (ErrMessage (message err))
         else None
     end.
Proof.
  cbv zeta. unfold yaml_set.
  change (yaml (set_yaml (Some text) s)) with text.
  destruct (safeLoad env text) as [c|err] eqn:L.
  - set (s0 := set_error None (set_config c (set_yaml (Some text) s))).
    destruct (_setConfig_frame env s0) as (H1 & H2 & _).
    unfold value, yaml. rewrite H1, H2. repeat split.
    apply (_setConfig_reconciles env s0). reflexivity.
  - set (s0 := set_error (Some (ErrMessage (message err)))
                 (set_yaml (Some text) s)).
    destruct (_setConfig_frame env s0) as (H1 & H2 & _).
    unfold value, yaml. rewrite H1, H2. repeat split.
    destruct (truthy (message err)) eqn:T.
    + subst s0. rewrite _setConfig_blocked by exact T. reflexivity.
    + apply (_setConfig_reconciles env s0). exact T.
Qed.

(** X13: what an assignment of a config to [value] leaves in the store
    whenever it passes the guard: the config assigned, the text dumped from
    it, and no error; the notification it dispatches carries no error
    either, whatever the reconciliation met on its synchronous part. *)
Theorem value_set_outcome (env : Env) (s : State)
    (c : LovelaceCardConfig) :
  is_current env (Some c) s = false ->
  let s' := value_set env (Some c) s in
  value s' = Some c
  /\ yaml s' = safeDump env c
  /\ _error s' = None
  /\ exists pre,
       events s' =
         (events s ++ pre ++
          [EvConfigChanged
             {| ConfigChanged.config := Some c;
                ConfigChanged.error := None;
                ConfigChanged.guiModeAvailable := negb (hasWarning s') |}])%list
       /\ change_count pre = 0.
Proof.
  intros G. cbv zeta. rewrite value_set_not_current by exact G.
  set (s0 := set_error None
               (set_yaml (Some (safeDump env c))
                  (set_config (Some c) s))).
  destruct (_setConfig_frame env s0) as (H1 & H2 & _).
  destruct (_setConfig_reconciles env s0 eq_refl) as [He _].
  destruct (_setConfig_emits env s0) as [pre [E C]].
  unfold value, yaml. rewrite H1, H2, He. repeat split.
  exists pre. split; [|exact C]. rewrite E.
  unfold reports, value, hasError. rewrite H1, He, orb_false_r.
  reflexivity.
Qed.

Lemma value_set_outcome_witness :
  let s' := value_set Scenario.env (Some Scenario.typeless_card)
              Scenario.start in
  value s' = Some Scenario.typeless_card /\ _error s' = None.
Proof.
  pose proof (value_set_outcome Scenario.env Scenario.start
                Scenario.typeless_card eq_refl) as H.
  cbv zeta in *. destruct H as (H1 & _ & H3 & _).
  split; [exact H1 | exact H3].
Defined.

(** X14: the code editor echoing the element's own text is ignored.  After
    an assignment of a config to [value] the text shown is the dump of the
    config; a [value-changed] with that text changes nothing: no parse, no
    reconciliation, no notification. *)
Theorem derived_text_echo_is_ignored (env : Env) (s : State)
    (c : LovelaceCardConfig) :
  is_current env (Some c) s = false ->
  _handleYAMLChanged env (safeDump env c) (value_set env (Some c) s)
  = value_set env (Some c) s.
Proof.
  intros G. unfold _handleYAMLChanged.
  destruct (value_set_store env s c G) as (_ & ->).
  rewrite String.eqb_refl. reflexivity.
Qed.

Lemma derived_text_echo_is_ignored_witness :
  _handleYAMLChanged Scenario.env
    (safeDump Scenario.env Scenario.card_a)
    (value_set Scenario.env (Some Scenario.card_a) Scenario.start)
  = value_set Scenario.env (Some Scenario.card_a) Scenario.start.
Proof.
  exact (derived_text_echo_is_ignored Scenario.env Scenario.start
           Scenario.card_a eq_refl).
Defined.

(** X15: the form editor echoing the parsed config keeps the user's text.
    After text was assigned that parses to a config [c] (equal to itself),
    a [config-changed] of the mounted editor with [c] stops at the guard:
    the text the user typed is not replaced by a dump of [c]. *)
Theorem parsed_config_echo_keeps_text (env : Env) (s : State)
    (text : string) (c : LovelaceCardConfig) :
  safeLoad env text = Returns (Some c) ->
  deepEqual env (Some c) (Some c) = true ->
  let s' := yaml_set env text s in
  _handleUIConfigChanged env c s' = s' /\ yaml s' = text.
Proof.
  intros L D. cbv zeta.
  destruct (yaml_set_store env s text) as (Hy & Hv).
  rewrite L in Hv. split; [|exact Hy].
  unfold _handleUIConfigChanged. apply value_set_current.
  unfold is_current. unfold value in Hv. rewrite Hv. exact D.
Qed.

Lemma parsed_config_echo_keeps_text_witness :
  let text := safeDump Scenario.env Scenario.markdown_card in
  let s' := yaml_set Scenario.env text Scenario.start in
  _handleUIConfigChanged Scenario.env Scenario.markdown_card s' = s'
  /\ yaml s' = text.
Proof.
  exact (parsed_config_echo_keeps_text Scenario.env Scenario.start
           (safeDump Scenario.env Scenario.markdown_card)
           Scenario.markdown_card eq_refl eq_refl).
Defined.

(** X16: the mode can always be toggled, and toggling twice undoes
    itself.  [toggleMode] flips the mode whatever error or warning is
    held; two calls leave every property as it was and dispatch two
    [GUImode-changed] events with opposite [guiMode] and the same
    [guiModeAvailable]. *)
Theorem toggleMode_twice (s : State) :
  GUImode (toggleMode s) = negb (GUImode s)
  /\ set_events (events s) (toggleMode (toggleMode s)) = s
  /\ events (toggleMode (toggleMode s)) =
     (events s ++
      [EvGUImodeChanged
         {| GUIModeChanged.guiMode := negb (GUImode s);
            GUIModeChanged.guiModeAvailable :=
              negb (hasWarning s || hasError s) |};
       EvGUImodeChanged
         {| GUIModeChanged.guiMode := GUImode s;
            GUIModeChanged.guiModeAvailable :=
              negb (hasWarning s || hasError s) |}])%list.
Proof.
  destruct s as [h l y c el ty g e w ld ev pd rc].
  unfold toggleMode, GUImode_set, fireEvent, set_events, GUImode,
    hasWarning, hasError. cbn. rewrite negb_involutive, <- app_assoc.
  repeat split.
Qed.
